(** * A shallow embedding of [api/github.py]

    The module defines one class, [Github], with a constructor and four
    read operations ([pulls], [user], [repo], [repo_list]).  Every operation
    issues HTTP GET requests through [requests.get] and projects the JSON
    reply.

    Modelling decisions.
    - A parsed JSON document is a value of [json].  A JSON object is kept as
      an association list in insertion order; lookup returns the first
      binding of a key.  Numbers are integers: no field the client reads is
      a number.
    - A Python [str] is a Rocq [string]; one character stands for one code
      point.
    - A Python exception is a value of [exn]; a computation that may raise
      returns a [result].  The two exceptions the module raises itself carry
      their message; exceptions raised by the interpreter or a library are
      kept by kind.
    - The remote service is a function from a request to what [requests.get]
      gives back: a response, or nothing when the transport fails.  Every
      operation returns, next to its result, the list of requests it issued,
      in order.
    - The [while True] loop of [repo_list] is driven by a fuel argument that
      bounds the number of pages requested; running out of fuel is [None]. *)

From Stdlib Require Import Ascii ZArith Lia.
From stdpp Require Import base list strings pretty gmap.

Local Open Scope string_scope.
Local Open Scope list_scope.
Local Open Scope Z_scope.

(** ** JSON values and Python exceptions *)

#[local] Set Warnings "-register-all".

Inductive json : Type :=
| JNull
| JBool (b : bool)
| JNum (n : Z)
| JStr (s : string)
| JArr (items : list json)
| JObj (fields : list (string * json)).

Inductive exn : Type :=
| ValueError (msg : string)      (* raise ValueError(...) in pulls *)
| RuntimeError (msg : string)    (* raise RuntimeError(...) *)
| KeyError                       (* d[k] on a dict without the key k *)
| IndexError                     (* l[i] on a list shorter than i + 1 *)
| TypeError                      (* an operation on a value of the wrong type *)
| IsoformatError                 (* the ValueError of datetime.fromisoformat *)
| JSONDecodeError                (* response.json() on a body that is not JSON *)
| TransportError.                (* requests.get fails to obtain a response *)

Inductive result (A : Type) : Type :=
| Ok (a : A)
| Raise (e : exn).
Arguments Ok {A} a.
Arguments Raise {A} e.

Definition rbind {A B} (r : result A) (k : A → result B) : result B :=
  match r with
  | Ok a => k a
  | Raise e => Raise e
  end.

#[global] Instance result_ret : MRet result := λ A a, Ok a.
#[global] Instance result_bind : MBind result := λ A B k r, rbind r k.

(** A list comprehension whose element expression may raise. *)
Fixpoint comprehension {A B} (f : A → result B) (l : list A) : result (list B) :=
  match l with
  | [] => Ok []
  | x :: rest => y ← f x; ys ← comprehension f rest; Ok (y :: ys)
  end.

(** What the interpreter contributes to the text of a message or of a URL
    and that the module does not fix: [repr] of a JSON value, and the
    rendering of the set literal [VALID_STATES], whose element order is not
    specified. *)
Record PyRuntime : Type := {
  py_repr : json → string;
  repr_VALID_STATES : string
}.

(** ** Python operations on parsed JSON *)

Fixpoint assoc (k : string) (fields : list (string * json)) : option json :=
  match fields with
  | [] => None
  | (k', v) :: rest => if decide (k = k') then Some v else assoc k rest
  end.

(** [v[k]] with a [str] key. *)
Definition getitem (v : json) (k : string) : result json :=
  match v with
  | JObj fields =>
      match assoc k fields with
      | Some x => Ok x
      | None => Raise KeyError
      end
  | _ => Raise TypeError
  end.

Fixpoint chars (s : string) : list json :=
  match s with
  | EmptyString => []
  | String c rest => JStr (String c EmptyString) :: chars rest
  end.

(** [iter(v)]: the elements of a list, the keys of a dict, the characters of
    a str. *)
Definition py_iter (v : json) : result (list json) :=
  match v with
  | JArr items => Ok items
  | JObj fields => Ok ((λ kv, JStr (fst kv)) <$> fields)
  | JStr s => Ok (chars s)
  | _ => Raise TypeError
  end.

(** [len(v)]. *)
Definition py_len (v : json) : result nat :=
  match v with
  | JArr items => Ok (length items)
  | JObj fields => Ok (length fields)
  | JStr s => Ok (String.length s)
  | _ => Raise TypeError
  end.

(** [v == []]. *)
Definition is_empty_list (v : json) : bool :=
  match v with
  | JArr [] => true
  | _ => false
  end.

(** [str(v)], as an f-string renders a field: a str is itself, any other
    value is its repr. *)
Definition py_str (rt : PyRuntime) (v : json) : string :=
  match v with
  | JStr s => s
  | _ => py_repr rt v
  end.

(** [set(v)] seen from a set of strings.  The call fails on a value that is
    not iterable and on an element that is not hashable (a list or a dict).
    Only the str elements are kept: no other element compares equal to a
    str, so they never decide whether a set of strings is a subset. *)
Fixpoint str_elements (items : list json) : result (gset string) :=
  match items with
  | [] => Ok ∅
  | JStr s :: rest => rbind (str_elements rest) (λ S, Ok ({[s]} ∪ S))
  | JArr _ :: _ | JObj _ :: _ => Raise TypeError
  | _ :: rest => str_elements rest
  end.

Definition py_set (v : json) : result (gset string) :=
  rbind (py_iter v) str_elements.

(** [set(topics)] for the parameter [topics : List[str] = None]. *)
Definition topics_set (topics : option (list string)) : result (gset string) :=
  match topics with
  | Some l => Ok (list_to_set l)
  | None => Raise TypeError
  end.

(** [s.lower()] on code points below 256: the letters A-Z, and the capital
    letters of Latin-1 (192-214 and 216-222), move up by 32. *)
Definition lower_char (c : ascii) : ascii :=
  let n := N_of_ascii c in
  if ((65 <=? n) && (n <=? 90) || (192 <=? n) && (n <=? 214)
      || (216 <=? n) && (n <=? 222))%N
  then ascii_of_N (n + 32) else c.

Fixpoint lower (s : string) : string :=
  match s with
  | EmptyString => EmptyString
  | String c rest => String (lower_char c) (lower rest)
  end.

(** [s[:-1]]. *)
Fixpoint drop_last (s : string) : string :=
  match s with
  | EmptyString => EmptyString
  | String c EmptyString => EmptyString
  | String c rest => String c (drop_last rest)
  end.

(** ** [datetime.fromisoformat]

    The grammar is the one documented for Python 3.7 to 3.10:
    [YYYY-MM-DD[*HH[:MM[:SS[.fff[fff]]]][+HH:MM[:SS[.ffffff]]]]], where [*]
    is any one character, followed by the range checks of the [datetime] and
    [timezone] constructors.  Fields are decimal digits only.  Later
    versions accept more strings and give the same value on these. *)

Record datetime : Type := {
  year : Z; month : Z; day : Z;
  hour : Z; minute : Z; second : Z; microsecond : Z;
  tzinfo : option Z   (* the UTC offset in microseconds; None is naive *)
}.

Definition digit (c : ascii) : option Z :=
  let n := Z.of_N (N_of_ascii c) in
  if (48 <=? n) && (n <=? 57) then Some (n - 48) else None.

Fixpoint digits (n : nat) (s : string) (acc : Z) : option (Z * string) :=
  match n, s with
  | O, _ => Some (acc, s)
  | S n', String c rest => d ← digit c; digits n' rest (10 * acc + d)
  | S _, EmptyString => None
  end.

Definition expect (c : ascii) (s : string) : option string :=
  match s with
  | String c' rest => if decide (c = c') then Some rest else None
  | EmptyString => None
  end.

Definition parse_isoformat_date (s : string) : option (Z * Z * Z) :=
  '(y, s) ← digits 4 s 0;
  s ← expect "-" s;
  '(m, s) ← digits 2 s 0;
  s ← expect "-" s;
  '(d, s) ← digits 2 s 0;
  match s with
  | EmptyString => Some (y, m, d)
  | _ => None
  end.

Definition parse_fraction (s : string) : option Z :=
  if decide (String.length s = 3%nat) then
    '(us, _) ← digits 3 s 0; Some (us * 1000)
  else if decide (String.length s = 6%nat) then
    '(us, _) ← digits 6 s 0; Some us
  else None.

Definition parse_hh_mm_ss_ff (s : string) : option (Z * Z * Z * Z) :=
  '(h, s) ← digits 2 s 0;
  match s with
  | EmptyString => Some (h, 0, 0, 0)
  | _ =>
      s ← expect ":" s;
      '(m, s) ← digits 2 s 0;
      match s with
      | EmptyString => Some (h, m, 0, 0)
      | _ =>
          s ← expect ":" s;
          '(sec, s) ← digits 2 s 0;
          match s with
          | EmptyString => Some (h, m, sec, 0)
          | _ => s ← expect "." s; us ← parse_fraction s; Some (h, m, sec, us)
          end
      end
  end.

(** The time text up to the first sign, and the sign and the text after it. *)
Fixpoint split_tz (s : string) : string * option (Z * string) :=
  match s with
  | EmptyString => (EmptyString, None)
  | String c rest =>
      if decide (c = "+"%char) then (EmptyString, Some (1, rest))
      else if decide (c = "-"%char) then (EmptyString, Some (-1, rest))
      else let '(t, z) := split_tz rest in (String c t, z)
  end.

Definition parse_tz (sign : Z) (s : string) : option Z :=
  let n := String.length s in
  if decide (n = 5%nat ∨ n = 8%nat ∨ n = 15%nat) then
    '(h, m, sec, us) ← parse_hh_mm_ss_ff s;
    Some (sign * (((h * 60 + m) * 60 + sec) * 1000000 + us))
  else None.

Definition parse_isoformat_time (s : string)
  : option (Z * Z * Z * Z * option Z) :=
  let '(t, z) := split_tz s in
  '(h, m, sec, us) ← parse_hh_mm_ss_ff t;
  match z with
  | None => Some (h, m, sec, us, None)
  | Some (sign, tz) => off ← parse_tz sign tz; Some (h, m, sec, us, Some off)
  end.

Definition is_leap (y : Z) : bool :=
  (y mod 4 =? 0) && (negb (y mod 100 =? 0) || (y mod 400 =? 0)).

Definition days_in_month (y m : Z) : Z :=
  if m =? 2 then (if is_leap y then 29 else 28)
  else if (m =? 4) || (m =? 6) || (m =? 9) || (m =? 11) then 30
  else 31.

Definition day_us : Z := 24 * 60 * 60 * 1000000.

(** The range checks of [datetime(...)] and of [timezone(offset)]. *)
Definition valid_datetime (d : datetime) : bool :=
  (1 <=? year d) && (year d <=? 9999)
  && (1 <=? month d) && (month d <=? 12)
  && (1 <=? day d) && (day d <=? days_in_month (year d) (month d))
  && (0 <=? hour d) && (hour d <=? 23)
  && (0 <=? minute d) && (minute d <=? 59)
  && (0 <=? second d) && (second d <=? 59)
  && (0 <=? microsecond d) && (microsecond d <=? 999999)
  && match tzinfo d with
     | None => true
     | Some off => (- day_us <? off) && (off <? day_us)
     end.

Definition string_drop (n : nat) (s : string) : string :=
  String.substring n (String.length s - n) s.

Definition fromisoformat (s : string) : result datetime :=
  let dstr := String.substring 0 10 s in
  let tstr := string_drop 11 s in
  match parse_isoformat_date dstr with
  | None => Raise IsoformatError
  | Some (y, m, d) =>
      let time :=
        match tstr with
        | EmptyString => Some (0, 0, 0, 0, None)
        | _ => parse_isoformat_time tstr
        end in
      match time with
      | None => Raise IsoformatError
      | Some (h, mi, sec, us, tz) =>
          let dt := {| year := y; month := m; day := d; hour := h;
                       minute := mi; second := sec; microsecond := us;
                       tzinfo := tz |} in
          if valid_datetime dt then Ok dt else Raise IsoformatError
      end
  end.

(** ** HTTP: requests, responses and the remote service *)

Definition header_map : Type := list (string * string).

Record request : Type := {
  req_url : string;
  req_headers : option header_map   (* None: requests.get(url) *)
}.

Record response : Type := {
  status_code : Z;
  body : option json                (* None: the body is not JSON *)
}.

(** What [requests.get] returns for a request; [None] when it raises. *)
Definition server : Type := request → option response.

(** [response.ok]: [raise_for_status] raises exactly on 400 to 599. *)
Definition ok (r : response) : bool :=
  negb ((400 <=? status_code r) && (status_code r <? 600)).

(** [response.json()]. *)
Definition json_of (r : response) : result json :=
  match body r with
  | Some j => Ok j
  | None => Raise JSONDecodeError
  end.

(** A computation that issues requests: the requests issued, in order, and
    the value returned or the exception raised. *)
Definition io (A : Type) : Type := list request * result A.

Definition io_bind {A B} (m : io A) (k : A → io B) : io B :=
  match m with
  | (tr, Ok a) => let '(tr', r) := k a in (tr ++ tr', r)
  | (tr, Raise e) => (tr, Raise e)
  end.

#[global] Instance io_mret : MRet io := λ A a, ([], Ok a).
#[global] Instance io_mbind : MBind io := λ A B k m, io_bind m k.

Definition lift {A} (r : result A) : io A := ([], r).
Definition raise {A} (e : exn) : io A := ([], Raise e).

Definition requests_get (srv : server) (u : string) (h : option header_map)
  : io response :=
  let rq := {| req_url := u; req_headers := h |} in
  ([rq], match srv rq with
         | Some r => Ok r
         | None => Raise TransportError
         end).

(** ** The class [Github] *)

Record Github : Type := {
  url : string;
  headers : option header_map
}.

(** [f"token {token}"] for [token : str = None]. *)
Definition format_token (token : option string) : string :=
  "token " +:+ match token with
               | Some t => t
               | None => "None"
               end.

(** [Github.__init__]. *)
Definition init (token : option string) : Github :=
  {| url := "https://api.github.com/";
     headers := Some [("Authorization", format_token token)] |}.

(** The dispatch every method repeats:
    [if self.headers == None: requests.get(url)]
    [else: requests.get(url, headers=self.headers)]. *)
Definition send (srv : server) (self : Github) (u : string) : io response :=
  match headers self with
  | None => requests_get srv u None
  | Some h => requests_get srv u (Some h)
  end.

(** [raise RuntimeError(f"Error {response.status_code}: {response.json()['message']}")]. *)
Definition raise_request_error {A} (rt : PyRuntime) (r : response) : io A :=
  err ← lift (json_of r);
  message ← lift (getitem err "message");
  raise (RuntimeError
           ("Error " +:+ pretty (status_code r) +:+ ": " +:+ py_str rt message)).

(** *** [pulls] *)

Record pull : Type := {
  pr_username : json;
  pr_labels : list json;
  pr_created_at : datetime
}.

(** An element of the list [data] while [pulls] rewrites it in place: a JSON
    item not yet visited, or the record put in its place. *)
Inductive slot : Type :=
| Item (j : json)
| Rec (r : pull).

(** What [pulls] returns: the rewritten list, or [response.json()] itself
    when it is an empty dict or an empty str, over which the loop does not
    run. *)
Inductive pulls_data : Type :=
| Records (l : list slot)
| Untouched (j : json).

Definition VALID_STATES : list string := ["all"; "open"; "closed"].

(** [datetime.fromisoformat(v[:-1] + "+00:00")]. *)
Definition parse_created_at (v : json) : result datetime :=
  match v with
  | JStr s => fromisoformat (drop_last s +:+ "+00:00")
  | _ => Raise TypeError
  end.

(** The body of the loop: the record built from [data[index]]. *)
Definition pull_record (item : json) : result pull :=
  user ← getitem item "user";
  login ← getitem user "login";
  labels ← getitem item "labels";
  labels ← py_iter labels;
  names ← comprehension (λ label, getitem label "name") labels;
  created ← getitem item "created_at";
  created ← parse_created_at created;
  Ok {| pr_username := login; pr_labels := names; pr_created_at := created |}.

(** [for index in range(len(data)): ...; data[index] = record]. *)
Fixpoint pulls_loop (indices : list nat) (data : list slot)
  : result (list slot) :=
  match indices with
  | [] => Ok data
  | index :: rest =>
      match data !! index with
      | Some (Item item) =>
          record ← pull_record item;
          pulls_loop rest (<[index := Rec record]> data)
      | Some (Rec _) => Raise KeyError
      | None => Raise IndexError
      end
  end.

Definition filter_pulls (data : json) : result pulls_data :=
  match data with
  | JArr items =>
      l ← pulls_loop (seq 0 (length items)) (Item <$> items); Ok (Records l)
  | JObj [] | JStr EmptyString => Ok (Untouched data)
  | JObj (_ :: _) => Raise KeyError
  | _ => Raise TypeError
  end.

Definition pulls (rt : PyRuntime) (srv : server) (self : Github)
    (repo state : string) : io pulls_data :=
  let state := lower state in
  if decide (state ∈ VALID_STATES) then
    let u := url self +:+ "repos/" +:+ repo +:+ "/pulls?state=" +:+ state in
    response ← send srv self u;
    if ok response then
      data ← lift (json_of response);
      lift (filter_pulls data)
    else raise_request_error rt response
  else
    raise (ValueError ("state: state must be one of " +:+ repr_VALID_STATES rt)).

(** *** [user] and [repo] *)

Record user_info : Type := {
  user_username : json;
  user_name : json;
  user_avatar_url : json;
  user_url : json
}.

Definition filter_user (data : json) : result user_info :=
  login ← getitem data "login";
  name ← getitem data "name";
  avatar_url ← getitem data "avatar_url";
  html_url ← getitem data "html_url";
  Ok {| user_username := login; user_name := name;
        user_avatar_url := avatar_url; user_url := html_url |}.

Definition user (rt : PyRuntime) (srv : server) (self : Github)
    (username : string) : io user_info :=
  let u := url self +:+ "users/" +:+ username in
  response ← send srv self u;
  if ok response then
    data ← lift (json_of response);
    lift (filter_user data)
  else raise_request_error rt response.

Record repo_info : Type := {
  repo_name : json;
  repo_full_name : json;
  repo_description : json;
  repo_url : json;
  repo_clone_url : json
}.

Definition filter_repo (data : json) : result repo_info :=
  name ← getitem data "name";
  full_name ← getitem data "full_name";
  description ← getitem data "description";
  html_url ← getitem data "html_url";
  clone_url ← getitem data "clone_url";
  Ok {| repo_name := name; repo_full_name := full_name;
        repo_description := description; repo_url := html_url;
        repo_clone_url := clone_url |}.

Definition repo (rt : PyRuntime) (srv : server) (self : Github)
    (repo : string) : io repo_info :=
  let u := url self +:+ "repos/" +:+ repo in
  response ← send srv self u;
  if ok response then
    data ← lift (json_of response);
    lift (filter_repo data)
  else raise_request_error rt response.

(** *** [repo_list] *)

(** [f"{self.url}users/{org}/repos?per_page=100"], then [f"{url}&page={page}"]. *)
Definition page_url (self : Github) (org : string) (page : Z) : string :=
  (url self +:+ "users/" +:+ org +:+ "/repos?per_page=100")
    +:+ "&page=" +:+ pretty page.

(** [f"{self.url}repos/{repo['full_name']}/topics"]. *)
Definition topics_url (rt : PyRuntime) (self : Github) (full_name : json)
  : string :=
  url self +:+ "repos/" +:+ py_str rt full_name +:+ "/topics".

(** [for repo in repo_data: ...], with the list [repos] built so far. *)
Fixpoint repo_loop (rt : PyRuntime) (srv : server) (self : Github)
    (topics : option (list string)) (repo_data : list json)
    (repos : list json) : io (list json) :=
  match repo_data with
  | [] => mret repos
  | repo :: rest =>
      full_name ← lift (getitem repo "full_name");
      response ← send srv self (topics_url rt self full_name);
      doc ← lift (json_of response);
      topics_data ← lift (getitem doc "names");
      wanted ← lift (topics_set topics);
      present ← lift (py_set topics_data);
      if decide (wanted ⊆ present) then
        full_name ← lift (getitem repo "full_name");
        repo_loop rt srv self topics rest (repos ++ [full_name])
      else repo_loop rt srv self topics rest repos
  end.

(** Sequencing with a continuation that may run out of fuel. *)
Definition io_then {A B} (m : io A) (k : A → option (io B)) : option (io B) :=
  match m with
  | (tr, Ok a) =>
      match k a with
      | Some (tr', r) => Some (tr ++ tr', r)
      | None => None
      end
  | (tr, Raise e) => Some (tr, Raise e)
  end.

(** [while True: ...] from the given page on; one unit of fuel per page
    requested. *)
Fixpoint page_loop (rt : PyRuntime) (srv : server) (self : Github)
    (org : string) (topics : option (list string)) (fuel : nat) (page : Z)
    (repos : list json) : option (io (list json)) :=
  match fuel with
  | O => None
  | S fuel' =>
      io_then (response ← send srv self (page_url self org page);
               lift (json_of response))
        (λ repo_data,
           if is_empty_list repo_data then Some (mret repos)
           else
             io_then (repo_data ← lift (py_iter repo_data);
                      repo_loop rt srv self topics repo_data repos)
               (λ repos, page_loop rt srv self org topics fuel' (page + 1) repos))
  end.

Definition repo_list (rt : PyRuntime) (srv : server) (self : Github)
    (org : string) (topics : option (list string)) (fuel : nat)
  : option (io (list json)) :=
  page_loop rt srv self org topics fuel 1 [].

(** * Specification vocabulary *)

(** ** Requests and traces *)

(** The request a method of [self] issues for a URL. *)
Definition request_for (self : Github) (u : string) : request :=
  {| req_url := u; req_headers := headers self |}.

Definition pulls_url (self : Github) (repo state : string) : string :=
  url self +:+ "repos/" +:+ repo +:+ "/pulls?state=" +:+ state.

Definition page_request (self : Github) (org : string) (page : Z) : request :=
  request_for self (page_url self org page).

Definition topics_request (rt : PyRuntime) (self : Github) (full_name : json)
  : request :=
  request_for self (topics_url rt self full_name).

(** A runtime for closed examples: [repr] is that of Python on [None], the
    booleans and the integers, and a placeholder on the other values. *)
Definition sample_runtime : PyRuntime :=
  {| py_repr := λ v, match v with
                     | JNull => "None"
                     | JBool true => "True"
                     | JBool false => "False"
                     | JNum n => pretty n
                     | JStr _ => "'...'"
                     | JArr _ => "[...]"
                     | JObj _ => "{...}"
                     end;
     repr_VALID_STATES := "{'all', 'open', 'closed'}" |}.

(** ** Case-insensitive comparison, stated without [lower] *)

Definition is_ascii_upper (n : N) : bool := ((65 <=? n) && (n <=? 90))%N.

(** Two characters that are equal, or the two cases of one ASCII letter. *)
Definition caseless_eqb (a b : ascii) : bool :=
  let x := N_of_ascii a in
  let y := N_of_ascii b in
  ((x =? y) || is_ascii_upper x && (y =? x + 32)
   || is_ascii_upper y && (x =? y + 32))%N.

Fixpoint ci_equal (s t : string) : bool :=
  match s, t with
  | EmptyString, EmptyString => true
  | String a s', String b t' => caseless_eqb a b && ci_equal s' t'
  | _, _ => false
  end.

Definition is_ascii_lower (c : ascii) : bool :=
  ((97 <=? N_of_ascii c) && (N_of_ascii c <=? 122))%N.

Fixpoint lowercase_word (s : string) : bool :=
  match s with
  | EmptyString => true
  | String c rest => is_ascii_lower c && lowercase_word rest
  end.

(** ** What a pull-request item holds *)

(** [describes item r]: the JSON item has a [user.login], a [labels] array
    whose elements each have a [name], and a [created_at] string which,
    with its last character replaced by [+00:00], is an ISO timestamp; [r]
    holds the login, the names in order and that timestamp. *)
Definition describes (item : json) (r : pull) : Prop :=
  ∃ user labels t c,
    getitem item "user" = Ok user ∧
    getitem user "login" = Ok (pr_username r) ∧
    getitem item "labels" = Ok (JArr labels) ∧
    Forall2 (λ label name, getitem label "name" = Ok name) labels (pr_labels r) ∧
    getitem item "created_at" = Ok (JStr (t +:+ String c EmptyString)) ∧
    fromisoformat (t +:+ "+00:00") = Ok (pr_created_at r).

(** ** What the remote service holds for [repo_list] *)

(** A repository as the two endpoints present it: the item of a page, its
    [full_name], and the topic names of its topics document. *)
Record fetched : Type := {
  f_repo : json;
  f_full_name : json;
  f_topics : list string
}.

Definition has_topics (rt : PyRuntime) (srv : server) (self : Github)
    (x : fetched) : Prop :=
  getitem (f_repo x) "full_name" = Ok (f_full_name x) ∧
  ∃ resp doc,
    srv (topics_request rt self (f_full_name x)) = Some resp ∧
    body resp = Some doc ∧
    getitem doc "names" = Ok (JArr (JStr <$> f_topics x)).

(** [pages_from rt srv self org p pages]: from page [p] on, the service
    answers with the non-empty pages [pages], one after the other, and
    then with an empty list. *)
Inductive pages_from (rt : PyRuntime) (srv : server) (self : Github)
    (org : string) : Z → list (list fetched) → Prop :=
| pages_end p resp :
    srv (page_request self org p) = Some resp →
    body resp = Some (JArr []) →
    pages_from rt srv self org p []
| pages_next p resp items rest :
    srv (page_request self org p) = Some resp →
    body resp = Some (JArr (f_repo <$> items)) →
    items ≠ [] →
    Forall (has_topics rt srv self) items →
    pages_from rt srv self org (p + 1) rest →
    pages_from rt srv self org p (items :: rest).

(** [pages_prefix rt srv self org p pages]: from page [p] on, the service
    answers with the non-empty pages [pages], one after the other; nothing
    is said of the page after them. *)
Inductive pages_prefix (rt : PyRuntime) (srv : server) (self : Github)
    (org : string) : Z → list (list fetched) → Prop :=
| prefix_end p : pages_prefix rt srv self org p []
| prefix_next p resp items rest :
    srv (page_request self org p) = Some resp →
    body resp = Some (JArr (f_repo <$> items)) →
    items ≠ [] →
    Forall (has_topics rt srv self) items →
    pages_prefix rt srv self org (p + 1) rest →
    pages_prefix rt srv self org p (items :: rest).

(** The requests of a run over the pages of a prefix: each page request,
    followed by one topics request per repository of the page. *)
Fixpoint prefix_trace (rt : PyRuntime) (self : Github) (org : string) (p : Z)
    (pages : list (list fetched)) : list request :=
  match pages with
  | [] => []
  | items :: rest =>
      (page_request self org p
         :: ((λ x, topics_request rt self (f_full_name x)) <$> items))
        ++ prefix_trace rt self org (p + 1) rest
  end.

(** [topics] is a subset of the topic names of a repository. *)
Definition matches (topics : list string) (x : fetched) : Prop :=
  list_to_set topics ⊆@{gset string} list_to_set (f_topics x).

#[global] Instance matches_dec topics x : Decision (matches topics x).
Proof. unfold matches. apply _. Defined.

(** The requests of a run over [pages]: each page request, followed by one
    topics request per repository of the page, and the request for the
    page after the last. *)
Fixpoint full_trace (rt : PyRuntime) (self : Github) (org : string) (p : Z)
    (pages : list (list fetched)) : list request :=
  match pages with
  | [] => [page_request self org p]
  | items :: rest =>
      (page_request self org p
         :: ((λ x, topics_request rt self (f_full_name x)) <$> items))
        ++ full_trace rt self org (p + 1) rest
  end.

(** The same service with every status code replaced. *)
Definition with_status (st : request → Z) (srv : server) : server :=
  λ rq, (λ r, {| status_code := st rq; body := body r |}) <$> srv rq.

(** A result that is not a raised [RuntimeError]. *)
Definition no_request_error {A} (r : result A) : Prop :=
  ∀ msg, r ≠ Raise (RuntimeError msg).

(** ** The timestamps of the API *)

(** The character of the decimal digit [n], for [n] from 0 to 9. *)
Definition digit_char (n : Z) : ascii := ascii_of_N (Z.to_N (48 + n)).

Definition two_digits (n : Z) : string :=
  String (digit_char (n / 10)) (String (digit_char (n mod 10)) EmptyString).

Definition four_digits (n : Z) : string :=
  two_digits (n / 100) +:+ two_digits (n mod 100).

(** The text of a UTC instant as the API writes it, [YYYY-MM-DDTHH:MM:SSZ]. *)
Definition github_timestamp (d : datetime) : string :=
  four_digits (year d) +:+ "-" +:+ two_digits (month d) +:+ "-"
    +:+ two_digits (day d) +:+ "T" +:+ two_digits (hour d) +:+ ":"
    +:+ two_digits (minute d) +:+ ":" +:+ two_digits (second d) +:+ "Z".

(** ** Services for closed examples *)

(** A service that gives the same response to every request. *)
Definition always (r : response) : server := λ _, Some r.

(** A service that answers by URL from a table, with status 200, and fails
    on every other URL. *)
Definition serve (table : list (string * json)) : server :=
  λ rq, (λ j, {| status_code := 200; body := Some j |}) <$> assoc (req_url rq) table.

Definition octocat : json :=
  JObj [("login", JStr "octocat"); ("name", JNull);
        ("avatar_url", JStr "https://avatars.example/1");
        ("html_url", JStr "https://github.com/octocat")].

Definition hello_world : json :=
  JObj [("id", JNum 1296269); ("name", JStr "Hello-World");
        ("full_name", JStr "octocat/Hello-World"); ("description", JNull);
        ("html_url", JStr "https://github.com/octocat/Hello-World");
        ("clone_url", JStr "https://github.com/octocat/Hello-World.git")].

(** A service that answers every request, with status 200, by an empty
    JSON object. *)
Definition hollow : server := always {| status_code := 200; body := Some (JObj []) |}.

(** A service that cannot be reached. *)
Definition unreachable : server := λ _, None.

(** A pull-request item with two labels, and the record made from it. *)
Definition sample_pull : json :=
  JObj [("number", JNum 7);
        ("user", JObj [("login", JStr "octocat"); ("id", JNum 1)]);
        ("labels", JArr [JObj [("name", JStr "bug")];
                         JObj [("id", JNum 3); ("name", JStr "hacktoberfest")]]);
        ("created_at", JStr "2023-01-01T12:00:00Z")].

Definition sample_record : pull :=
  {| pr_username := JStr "octocat";
     pr_labels := [JStr "bug"; JStr "hacktoberfest"];
     pr_created_at := {| year := 2023; month := 1; day := 1; hour := 12;
                         minute := 0; second := 0; microsecond := 0;
                         tzinfo := Some 0 |} |}.

(** An account with two repositories, one per page: the first has the
    topics "cli" and "tool", the second only "tool". *)
Definition cli_kit : fetched :=
  {| f_repo := JObj [("id", JNum 1); ("full_name", JStr "acme/cli-kit")];
     f_full_name := JStr "acme/cli-kit";
     f_topics := ["cli"; "tool"] |}.

Definition hammer : fetched :=
  {| f_repo := JObj [("id", JNum 2); ("full_name", JStr "acme/hammer")];
     f_full_name := JStr "acme/hammer";
     f_topics := ["tool"] |}.

Definition acme : server :=
  serve
    [("https://api.github.com/users/acme/repos?per_page=100&page=1",
      JArr [f_repo cli_kit]);
     ("https://api.github.com/users/acme/repos?per_page=100&page=2",
      JArr [f_repo hammer]);
     ("https://api.github.com/users/acme/repos?per_page=100&page=3", JArr []);
     ("https://api.github.com/repos/acme/cli-kit/topics",
      JObj [("names", JArr [JStr "cli"; JStr "tool"])]);
     ("https://api.github.com/repos/acme/hammer/topics",
      JObj [("names", JArr [JStr "tool"])])].

(** * Proofs *)

Lemma send_spec srv self u :
  send srv self u =
  ([request_for self u],
   match srv (request_for self u) with
   | Some r => Ok r
   | None => Raise TransportError
   end).
Proof. unfold send, request_for. by destruct (headers self). Qed.

Lemma io_bind_ok {A B} tr (a : A) (k : A → io B) :
  ((tr, Ok a) ≫= k) = (tr ++ (k a).1, (k a).2).
Proof. unfold mbind, io_mbind, io_bind. by destruct (k a). Qed.

Lemma io_bind_raise {A B} tr e (k : A → io B) :
  ((tr, Raise e) ≫= k) = (tr, Raise e).
Proof. done. Qed.

Lemma io_bind_lift_ok {A B} (a : A) (k : A → io B) : (lift (Ok a) ≫= k) = k a.
Proof. unfold lift. rewrite io_bind_ok. by destruct (k a). Qed.

Lemma io_bind_lift_raise {A B} e (k : A → io B) :
  (lift (Raise e) ≫= k) = raise e.
Proof. done. Qed.

Lemma N_of_ascii_bound c : (N_of_ascii c < 256)%N.
Proof. by destruct c as [[] [] [] [] [] [] [] []]. Qed.

Lemma N_of_ascii_inj a b : N_of_ascii a = N_of_ascii b → a = b.
Proof. intros H. by rewrite <- (ascii_N_embedding a), H, ascii_N_embedding. Qed.

Ltac N_bools :=
  rewrite ?orb_true_iff, ?orb_false_iff, ?andb_true_iff, ?andb_false_iff,
    ?N.leb_le, ?N.leb_gt, ?N.eqb_eq, ?N.eqb_neq in *.

Lemma lower_char_caseless c d :
  is_ascii_lower d = true → lower_char c = d ↔ caseless_eqb c d = true.
Proof.
  unfold is_ascii_lower, lower_char, caseless_eqb, is_ascii_upper.
  pose proof (N_of_ascii_bound c) as Hc. pose proof (N_of_ascii_bound d) as Hd.
  intros Hl. split.
  - intros <-.
    destruct (_ || _)%bool eqn:Hup in Hl |- *; N_bools.
    + rewrite N_ascii_embedding in Hl |- * by lia. lia.
    + lia.
  - intros H. apply N_of_ascii_inj.
    match goal with
    | |- context [if ?b then _ else _] => destruct b eqn:Hup
    end; N_bools.
    + rewrite N_ascii_embedding by lia. lia.
    + lia.
Qed.

Lemma lower_ci_equal s v :
  lowercase_word v = true → lower s = v ↔ ci_equal s v = true.
Proof.
  revert v. induction s as [|c s IH]; intros [|d v]; simpl; try done.
  rewrite andb_true_iff. intros [Hd Hv].
  rewrite andb_true_iff, <- (IH v Hv), <- (lower_char_caseless c d Hd).
  split; [by intros [= -> ->] | by intros [-> ->]].
Qed.

Lemma VALID_STATES_lowercase v : v ∈ VALID_STATES → lowercase_word v = true.
Proof.
  unfold VALID_STATES. rewrite !elem_of_cons, elem_of_nil.
  by intros [-> | [-> | [-> | []]]].
Qed.

Lemma lower_valid_iff s :
  lower s ∈ VALID_STATES ↔ ∃ v, v ∈ VALID_STATES ∧ ci_equal s v = true.
Proof.
  split.
  - intros H. exists (lower s). split; [done |].
    by apply lower_ci_equal; [apply VALID_STATES_lowercase |].
  - intros (v & Hv & Hci).
    apply lower_ci_equal in Hci; [by subst | by apply VALID_STATES_lowercase].
Qed.

Lemma raise_request_error_spec {A} rt r :
  @raise_request_error A rt r =
  ([], match json_of r with
       | Ok err =>
           match getitem err "message" with
           | Ok m => Raise (RuntimeError ("Error " +:+ pretty (status_code r)
                                            +:+ ": " +:+ py_str rt m))
           | Raise e => Raise e
           end
       | Raise e => Raise e
       end).
Proof.
  unfold raise_request_error.
  destruct (json_of r) as [err|]; [| done]. rewrite io_bind_lift_ok.
  by destruct (getitem err "message").
Qed.

(** After the request, a method only computes on the response. *)
Lemma send_then {A} rt srv self u (f : json → result A) :
  (response ← send srv self u;
   if ok response then data ← lift (json_of response); lift (f data)
   else raise_request_error rt response) =
  ([request_for self u],
   match srv (request_for self u) with
   | None => Raise TransportError
   | Some r =>
       if ok r then data ← json_of r; f data
       else (@raise_request_error A rt r).2
   end).
Proof.
  rewrite send_spec. destruct (srv _) as [r|]; [| done].
  rewrite io_bind_ok. destruct (ok r).
  - by destruct (json_of r).
  - by rewrite raise_request_error_spec.
Qed.

(** ** The [state] argument of [pulls] *)

Lemma existsb_ci_equal state :
  existsb (ci_equal state) VALID_STATES = true ↔ lower state ∈ VALID_STATES.
Proof.
  rewrite lower_valid_iff, existsb_exists.
  by setoid_rewrite <- list_elem_of_In.
Qed.

Lemma pulls_valid rt srv self repo state :
  lower state ∈ VALID_STATES →
  pulls rt srv self repo state =
  (response ← send srv self (pulls_url self repo (lower state));
   if ok response then data ← lift (json_of response); lift (filter_pulls data)
   else raise_request_error rt response).
Proof. intros H. unfold pulls. by rewrite decide_True. Qed.

Lemma lower_idemp_valid v : v ∈ VALID_STATES → lower v = v.
Proof.
  unfold VALID_STATES. rewrite !elem_of_cons, elem_of_nil.
  by intros [-> | [-> | [-> | []]]].
Qed.

(** C4. When [state] is not equal, letter case apart, to one of "all",
    "open" and "closed", [pulls] raises [ValueError] and has issued no
    request, whatever the repository, the client and the service. *)
Theorem pulls_invalid_state rt srv self repo state :
  existsb (ci_equal state) VALID_STATES = false →
  pulls rt srv self repo state =
  ([], Raise (ValueError
                ("state: state must be one of " +:+ repr_VALID_STATES rt))).
Proof.
  intros H. unfold pulls. rewrite decide_False; [done |].
  rewrite <- existsb_ci_equal. by rewrite H.
Qed.

Lemma pulls_invalid_state_witness :
  existsb (ci_equal "merged") VALID_STATES = false ∧
  pulls sample_runtime (λ _, None) (init None) "octocat/hello" "merged" =
  ([], Raise (ValueError
                "state: state must be one of {'all', 'open', 'closed'}")).
Proof.
  split; [reflexivity |].
  apply (pulls_invalid_state sample_runtime (λ _, None) (init None)
           "octocat/hello" "merged").
  reflexivity.
Defined.

(** C8. A [state] that is, letter case apart, one of the three valid values
    makes [pulls] behave as the call with that lower-case value does: the
    same request, for [?state=<lower-case value>], and the same result. *)
Theorem pulls_state_any_case rt srv self repo state v :
  v ∈ VALID_STATES →
  ci_equal state v = true →
  pulls rt srv self repo state = pulls rt srv self repo v ∧
  (pulls rt srv self repo state).1 = [request_for self (pulls_url self repo v)].
Proof.
  intros Hv Hci.
  apply lower_ci_equal in Hci; [| by apply VALID_STATES_lowercase].
  assert (lower state ∈ VALID_STATES) as Hs by (by rewrite Hci).
  assert (lower v ∈ VALID_STATES) as Hv' by (by rewrite lower_idemp_valid).
  rewrite (pulls_valid _ _ _ _ state Hs), (pulls_valid _ _ _ _ v Hv').
  rewrite Hci, (lower_idemp_valid v Hv). split; [done |].
  by rewrite send_then.
Qed.

Lemma pulls_state_any_case_witness :
  "open" ∈ VALID_STATES ∧ ci_equal "OPEN" "open" = true ∧
  pulls sample_runtime (always {| status_code := 200; body := Some (JArr []) |})
    (init (Some "s3cr3t")) "octocat/hello" "OPEN" =
  ([{| req_url := "https://api.github.com/repos/octocat/hello/pulls?state=open";
       req_headers := Some [("Authorization", "token s3cr3t")] |}],
   Ok (Records [])).
Proof.
  assert ("open" ∈ VALID_STATES) as Hv by (by vm_compute; repeat constructor).
  split; [exact Hv |]. split; [reflexivity |].
  rewrite (proj1 (pulls_state_any_case sample_runtime
                    (always {| status_code := 200; body := Some (JArr []) |})
                    (init (Some "s3cr3t")) "octocat/hello" "OPEN" "open"
                    Hv eq_refl)).
  reflexivity.
Defined.

(** ** The Authorization header *)

(** C3. A client constructed without a token does not send its requests
    unauthenticated: the request of [user] carries the header
    [Authorization: token None]. *)
Theorem token_omitted_sends_placeholder rt srv username :
  (user rt srv (init None) username).1 =
  [{| req_url := "https://api.github.com/users/" +:+ username;
      req_headers := Some [("Authorization", "token None")] |}].
Proof. unfold user. by rewrite send_then. Qed.

(** ** Responses that are not a success *)

Lemma ok_false_iff r : ok r = false ↔ 400 ≤ status_code r < 600.
Proof. unfold ok. rewrite negb_false_iff, andb_true_iff. lia. Qed.

(** X16. On a response whose status code is from 400 to 599 and whose body
    is a JSON object with a [message] field, each of [pulls] (given a valid
    state), [user] and [repo] raises, after its one request, [RuntimeError]
    with the message [Error <status code>: <message>], and returns
    nothing. *)
Theorem request_error_on_failure rt srv self resp err m :
  400 ≤ status_code resp < 600 →
  body resp = Some err →
  getitem err "message" = Ok m →
  let e := RuntimeError
             ("Error " +:+ pretty (status_code resp) +:+ ": " +:+ py_str rt m) in
  (∀ repo_name state,
     existsb (ci_equal state) VALID_STATES = true →
     srv (request_for self (pulls_url self repo_name (lower state))) = Some resp →
     pulls rt srv self repo_name state =
     ([request_for self (pulls_url self repo_name (lower state))], Raise e)) ∧
  (∀ username,
     srv (request_for self (url self +:+ "users/" +:+ username)) = Some resp →
     user rt srv self username =
     ([request_for self (url self +:+ "users/" +:+ username)], Raise e)) ∧
  (∀ repo_name,
     srv (request_for self (url self +:+ "repos/" +:+ repo_name)) = Some resp →
     repo rt srv self repo_name =
     ([request_for self (url self +:+ "repos/" +:+ repo_name)], Raise e)).
Proof.
  intros Hst Hbody Hmsg e. apply ok_false_iff in Hst.
  assert (∀ A, (@raise_request_error A rt resp).2 = Raise e) as Herr.
  { intros A. rewrite raise_request_error_spec. unfold json_of.
    by rewrite Hbody, Hmsg. }
  split; [| split].
  - intros repo_name state Hv Hsrv. apply existsb_ci_equal in Hv.
    by rewrite pulls_valid, send_then, Hsrv, Hst, Herr.
  - intros username Hsrv. unfold user.
    by rewrite send_then, Hsrv, Hst, Herr.
  - intros repo_name Hsrv. unfold repo.
    by rewrite send_then, Hsrv, Hst, Herr.
Qed.

Lemma request_error_on_failure_witness :
  let resp := {| status_code := 404;
                 body := Some (JObj [("message", JStr "Not Found")]) |} in
  let e := RuntimeError "Error 404: Not Found" in
  400 ≤ status_code resp < 600 ∧
  pulls sample_runtime (always resp) (init None) "octocat/none" "Closed" =
  ([request_for (init None)
      "https://api.github.com/repos/octocat/none/pulls?state=closed"], Raise e) ∧
  user sample_runtime (always resp) (init None) "nobody" =
  ([request_for (init None) "https://api.github.com/users/nobody"], Raise e) ∧
  repo sample_runtime (always resp) (init None) "octocat/none" =
  ([request_for (init None) "https://api.github.com/repos/octocat/none"], Raise e).
Proof.
  intros resp e.
  assert (400 ≤ status_code resp < 600) as Hst by (simpl; lia).
  destruct (request_error_on_failure sample_runtime (always resp) (init None)
              resp (JObj [("message", JStr "Not Found")]) (JStr "Not Found")
              Hst eq_refl eq_refl) as (Hpulls & Huser & Hrepo).
  split; [exact Hst |]. split; [| split].
  - exact (Hpulls "octocat/none" "Closed" eq_refl eq_refl).
  - exact (Huser "nobody" eq_refl).
  - exact (Hrepo "octocat/none" eq_refl).
Defined.

(** C5. The code does not raise [RuntimeError] on every response that is
    not a 2xx.  A response with status 300 is a success for [response.ok]:
    [pulls] returns the list of the body and [user] the projected fields.
    On a response with status 502 whose body is not JSON, the
    [raise RuntimeError(...)] that [pulls] and [user] attempt is never
    reached: building its message calls [response.json()], whose exception
    is what the caller gets. *)
Lemma non_2xx_without_request_error :
  (pulls sample_runtime (always {| status_code := 300; body := Some (JArr []) |})
     (init None) "octocat/hello" "all").2 = Ok (Records []) ∧
  (pulls sample_runtime (always {| status_code := 502; body := None |})
     (init None) "octocat/hello" "all").2 = Raise JSONDecodeError ∧
  (user sample_runtime (always {| status_code := 300; body := Some octocat |})
     (init None) "octocat").2 =
  Ok {| user_username := JStr "octocat"; user_name := JNull;
        user_avatar_url := JStr "https://avatars.example/1";
        user_url := JStr "https://github.com/octocat" |} ∧
  (user sample_runtime (always {| status_code := 502; body := None |})
     (init None) "octocat").2 = Raise JSONDecodeError.
Proof. repeat split; reflexivity. Qed.

(** ** The records of [pulls] *)

Lemma drop_last_snoc t c : drop_last (t +:+ String c EmptyString) = t.
Proof.
  induction t as [|a t IH]; [done |]. simpl in *. rewrite IH.
  by destruct t.
Qed.

Lemma comprehension_names labels names :
  Forall2 (λ label name, getitem label "name" = Ok name) labels names →
  comprehension (λ label, getitem label "name") labels = Ok names.
Proof. induction 1 as [|l n ls ns Hl _ IH]; simpl; [done |]. by rewrite Hl, IH. Qed.

Lemma pull_record_describes item r : describes item r → pull_record item = Ok r.
Proof.
  intros (user & labels & t & c & Hu & Hl & Hls & Hn & Hc & Hd).
  unfold pull_record. rewrite Hu. simpl. rewrite Hl, Hls. simpl.
  rewrite (comprehension_names _ _ Hn). simpl. rewrite Hc. simpl.
  rewrite drop_last_snoc, Hd. simpl. by destruct r.
Qed.

Lemma pulls_loop_describes visited items recs :
  Forall2 describes items recs →
  pulls_loop (seq (length visited) (length items))
    ((Rec <$> visited) ++ (Item <$> items)) =
  Ok (Rec <$> (visited ++ recs)).
Proof.
  intros H. revert visited.
  induction H as [|item r items recs Hd _ IH]; intros visited; simpl.
  - by rewrite !app_nil_r.
  - rewrite list_lookup_middle by (by rewrite length_fmap).
    rewrite (pull_record_describes _ _ Hd). simpl.
    replace (length visited) with (length (Rec <$> visited) + 0)%nat at 2
      by (rewrite length_fmap; lia).
    rewrite insert_app_r. simpl.
    specialize (IH (visited ++ [r])).
    rewrite length_app, Nat.add_comm, fmap_app, <- !app_assoc in IH.
    exact IH.
Qed.

Lemma pulls_describes rt srv self repo_name state resp items recs :
  existsb (ci_equal state) VALID_STATES = true →
  srv (request_for self (pulls_url self repo_name (lower state))) = Some resp →
  ok resp = true →
  body resp = Some (JArr items) →
  Forall2 describes items recs →
  pulls rt srv self repo_name state =
  ([request_for self (pulls_url self repo_name (lower state))],
   Ok (Records (Rec <$> recs))).
Proof.
  intros Hv Hsrv Hok Hbody Hd. apply existsb_ci_equal in Hv.
  rewrite pulls_valid, send_then, Hsrv, Hok by done.
  unfold json_of. rewrite Hbody.
  pose proof (pulls_loop_describes [] items recs Hd) as Hloop.
  simpl in Hloop |- *. by rewrite Hloop.
Qed.

Lemma sample_pull_describes : describes sample_pull sample_record.
Proof.
  exists (JObj [("login", JStr "octocat"); ("id", JNum 1)]),
    [JObj [("name", JStr "bug")];
     JObj [("id", JNum 3); ("name", JStr "hacktoberfest")]],
    "2023-01-01T12:00:00", "Z"%char.
  repeat split; repeat constructor.
Qed.

(** C6. On a successful response whose body is an array of N pull-request
    items, [pulls] returns N records, in the order of the array; the record
    of an item holds the item's [user.login] as username and the [name]
    values of the item's [labels] array, in order, as labels. *)
Theorem pulls_returns_records rt srv self repo_name state resp items recs :
  existsb (ci_equal state) VALID_STATES = true →
  srv (request_for self (pulls_url self repo_name (lower state))) = Some resp →
  ok resp = true →
  body resp = Some (JArr items) →
  Forall2 describes items recs →
  pulls rt srv self repo_name state =
  ([request_for self (pulls_url self repo_name (lower state))],
   Ok (Records (Rec <$> recs))) ∧
  length recs = length items ∧
  Forall2 (λ item r,
             ∃ user labels,
               getitem item "user" = Ok user ∧
               getitem user "login" = Ok (pr_username r) ∧
               getitem item "labels" = Ok (JArr labels) ∧
               Forall2 (λ label name, getitem label "name" = Ok name)
                 labels (pr_labels r))
    items recs.
Proof.
  intros Hv Hsrv Hok Hbody Hd. split; [| split].
  - by eapply pulls_describes.
  - symmetry. by eapply Forall2_length.
  - eapply Forall2_impl; [exact Hd |].
    intros item r (user & labels & t & c & Hu & Hl & Hls & Hn & _).
    by exists user, labels.
Qed.

Lemma pulls_returns_records_witness :
  let resp := {| status_code := 200;
                 body := Some (JArr [sample_pull; sample_pull]) |} in
  existsb (ci_equal "All") VALID_STATES = true ∧
  ok resp = true ∧
  pulls sample_runtime (always resp) (init None) "octocat/hello" "All" =
  ([request_for (init None)
      "https://api.github.com/repos/octocat/hello/pulls?state=all"],
   Ok (Records [Rec sample_record; Rec sample_record])).
Proof.
  intros resp. split; [reflexivity |]. split; [reflexivity |].
  assert (Forall2 describes [sample_pull; sample_pull]
            [sample_record; sample_record]) as Hd
    by (repeat constructor; apply sample_pull_describes).
  exact (proj1 (pulls_returns_records sample_runtime (always resp) (init None)
                  "octocat/hello" "All" resp [sample_pull; sample_pull]
                  [sample_record; sample_record]
                  eq_refl eq_refl eq_refl eq_refl Hd)).
Defined.

(** C7. [pulls] parses [created_at] with its last character, whatever it
    is, replaced by [+00:00]; an item whose [created_at] is
    "2023-01-01T12:00:00Z" yields a record whose timestamp is
    2023-01-01 12:00:00 at UTC offset zero. *)
Theorem pulls_created_at rt srv self repo_name state resp items recs i item :
  existsb (ci_equal state) VALID_STATES = true →
  srv (request_for self (pulls_url self repo_name (lower state))) = Some resp →
  ok resp = true →
  body resp = Some (JArr items) →
  Forall2 describes items recs →
  items !! i = Some item →
  getitem item "created_at" = Ok (JStr "2023-01-01T12:00:00Z") →
  (∀ t c, parse_created_at (JStr (t +:+ String c EmptyString)) =
          fromisoformat (t +:+ "+00:00")) ∧
  ∃ r,
    pulls rt srv self repo_name state =
    ([request_for self (pulls_url self repo_name (lower state))],
     Ok (Records (Rec <$> recs))) ∧
    recs !! i = Some r ∧
    pr_created_at r =
    {| year := 2023; month := 1; day := 1; hour := 12; minute := 0;
       second := 0; microsecond := 0; tzinfo := Some 0 |}.
Proof.
  intros Hv Hsrv Hok Hbody Hd Hi Hc. split.
  { intros t c. simpl. by rewrite drop_last_snoc. }
  destruct (Forall2_lookup_l _ _ _ _ _ Hd Hi) as (r & Hr & Hdr).
  exists r. split; [by eapply pulls_describes |]. split; [done |].
  destruct Hdr as (_ & _ & t & c & _ & _ & _ & _ & Hc' & Hiso).
  rewrite Hc in Hc'. injection Hc' as Heq.
  apply (f_equal drop_last) in Heq. rewrite drop_last_snoc in Heq.
  subst t. vm_compute in Hiso. by injection Hiso.
Qed.

Lemma pulls_created_at_witness :
  let resp := {| status_code := 200; body := Some (JArr [sample_pull]) |} in
  ∃ r,
    pulls sample_runtime (always resp) (init None) "octocat/hello" "open" =
    ([request_for (init None)
        "https://api.github.com/repos/octocat/hello/pulls?state=open"],
     Ok (Records (Rec <$> [sample_record]))) ∧
    [sample_record] !! 0%nat = Some r ∧
    pr_created_at r =
    {| year := 2023; month := 1; day := 1; hour := 12; minute := 0;
       second := 0; microsecond := 0; tzinfo := Some 0 |}.
Proof.
  intros resp.
  assert (Forall2 describes [sample_pull] [sample_record]) as Hd
    by (repeat constructor; apply sample_pull_describes).
  exact (proj2 (pulls_created_at sample_runtime (always resp) (init None)
                  "octocat/hello" "open" resp [sample_pull] [sample_record]
                  0%nat sample_pull
                  eq_refl eq_refl eq_refl eq_refl Hd eq_refl eq_refl)).
Defined.

(** ** The loops of [repo_list] *)

Lemma str_elements_strs l : str_elements (JStr <$> l) = Ok (list_to_set l).
Proof.
  induction l as [|s l IH]; [done |].
  rewrite fmap_cons. cbn [str_elements]. by rewrite IH.
Qed.

Lemma py_set_names l : py_set (JArr (JStr <$> l)) = Ok (list_to_set l).
Proof. exact (str_elements_strs l). Qed.

Lemma repo_loop_cons rt srv self topics repo rest repos :
  repo_loop rt srv self topics (repo :: rest) repos =
  (full_name ← lift (getitem repo "full_name");
   response ← send srv self (topics_url rt self full_name);
   doc ← lift (json_of response);
   topics_data ← lift (getitem doc "names");
   wanted ← lift (topics_set topics);
   present ← lift (py_set topics_data);
   if decide (wanted ⊆ present) then
     full_name ← lift (getitem repo "full_name");
     repo_loop rt srv self topics rest (repos ++ [full_name])
   else repo_loop rt srv self topics rest repos).
Proof. done. Qed.

Lemma repo_loop_selects rt srv self topics items repos :
  Forall (has_topics rt srv self) items →
  repo_loop rt srv self (Some topics) (f_repo <$> items) repos =
  ((λ x, topics_request rt self (f_full_name x)) <$> items,
   Ok (repos ++ (f_full_name <$> filter (matches topics) items))).
Proof.
  intros H. revert repos.
  induction H as [|x items (Hfn & resp & doc & Hsrv & Hbody & Hnames) _ IH];
    intros repos.
  - simpl. by rewrite app_nil_r.
  - rewrite fmap_cons, repo_loop_cons, Hfn, io_bind_lift_ok, send_spec.
    fold (topics_request rt self (f_full_name x)). rewrite Hsrv, io_bind_ok.
    unfold json_of. rewrite Hbody, io_bind_lift_ok, Hnames, io_bind_lift_ok.
    simpl topics_set. rewrite io_bind_lift_ok.
    rewrite py_set_names, io_bind_lift_ok.
    fold (matches topics x). destruct (decide (matches topics x)) as [Hm|Hm].
    + rewrite io_bind_lift_ok, IH, filter_cons_True by done.
      simpl. by rewrite <- app_assoc.
    + rewrite IH, filter_cons_False by done. done.
Qed.

Lemma page_loop_step rt srv self org topics fuel page repos :
  page_loop rt srv self org topics (S fuel) page repos =
  io_then (response ← send srv self (page_url self org page);
           lift (json_of response))
    (λ repo_data,
       if is_empty_list repo_data then Some (mret repos)
       else
         io_then (repo_data ← lift (py_iter repo_data);
                  repo_loop rt srv self topics repo_data repos)
           (λ repos, page_loop rt srv self org topics fuel (page + 1) repos)).
Proof. done. Qed.

(** The first step of the loop, once the page request is answered. *)
Lemma fetch_page srv self org page resp data :
  srv (page_request self org page) = Some resp →
  body resp = Some data →
  (response ← send srv self (page_url self org page); lift (json_of response)) =
  ([page_request self org page], Ok data).
Proof.
  intros Hsrv Hbody. rewrite send_spec. fold (page_request self org page).
  rewrite Hsrv, io_bind_ok. unfold json_of. by rewrite Hbody.
Qed.

Lemma page_loop_pages rt srv self org topics pages :
  ∀ page, pages_from rt srv self org page pages →
  ∀ fuel repos,
    page_loop rt srv self org (Some topics) fuel page repos =
    if decide (length pages < fuel)%nat then
      Some (full_trace rt self org page pages,
            Ok (repos ++ (f_full_name <$> filter (matches topics) (concat pages))))
    else None.
Proof.
  intros page H.
  induction H as [page resp Hsrv Hbody
                 |page resp items rest Hsrv Hbody Hne Htopics _ IH];
    intros [|fuel] repos; try done.
  - rewrite page_loop_step, (fetch_page _ _ _ _ _ _ Hsrv Hbody). simpl.
    by rewrite app_nil_r.
  - rewrite page_loop_step, (fetch_page _ _ _ _ _ _ Hsrv Hbody).
    cbn [io_then].
    assert (is_empty_list (JArr (f_repo <$> items)) = false) as ->
      by (by destruct items).
    cbn [py_iter]. rewrite io_bind_lift_ok.
    rewrite (repo_loop_selects _ _ _ _ _ _ Htopics). cbn [io_then].
    rewrite IH. cbn [length concat full_trace].
    destruct (decide (length rest < fuel)%nat);
      [rewrite decide_True by lia | by rewrite decide_False by lia].
    by rewrite filter_app, fmap_app, <- !app_assoc.
Qed.

(** C1. When the service holds the non-empty pages [pages] for [org],
    followed by an empty page, [repo_list] returns, given fuel for one page
    more than there are, the [full_name] of exactly those fetched
    repositories whose topic names include every element of [topics], in
    the order in which the repositories were fetched; with no topic asked
    for, that is every fetched repository. *)
Theorem repo_list_filters rt srv self org topics pages fuel :
  pages_from rt srv self org 1 pages →
  (length pages < fuel)%nat →
  let fetched := concat pages in
  ∃ repos tr,
    repo_list rt srv self org (Some topics) fuel = Some (tr, Ok repos) ∧
    repos = f_full_name <$> filter (matches topics) fetched ∧
    (∀ name, name ∈ repos ↔
             ∃ x, x ∈ fetched ∧ f_full_name x = name ∧
                  list_to_set topics ⊆@{gset string} list_to_set (f_topics x)) ∧
    (topics = [] → repos = f_full_name <$> fetched).
Proof.
  intros Hpages Hfuel fetched.
  exists (f_full_name <$> filter (matches topics) fetched),
    (full_trace rt self org 1 pages).
  split; [| split; [done | split]].
  - unfold repo_list. rewrite (page_loop_pages _ _ _ _ _ _ _ Hpages).
    by rewrite decide_True.
  - intros name. rewrite list_elem_of_fmap. split.
    + intros (x & Hx & [Hm Hin]%list_elem_of_filter). by exists x.
    + intros (x & Hin & Hx & Hm). exists x. split; [done |].
      by apply list_elem_of_filter.
  - intros ->. f_equal. induction fetched as [|x l IH]; [done |].
    rewrite filter_cons_True, IH; [done |].
    unfold matches. set_solver.
Qed.

Lemma acme_topics x :
  x ∈ [cli_kit; hammer] → has_topics sample_runtime acme (init None) x.
Proof.
  rewrite !elem_of_cons, elem_of_nil.
  intros [-> | [-> | []]]; (split; [reflexivity |]); eexists _, _;
    (split; [reflexivity |]); split; reflexivity.
Qed.

Lemma acme_pages :
  pages_from sample_runtime acme (init None) "acme" 1 [[cli_kit]; [hammer]].
Proof.
  eapply pages_next; [reflexivity | reflexivity | done | |].
  { repeat constructor. apply acme_topics. set_solver. }
  eapply pages_next; [reflexivity | reflexivity | done | |].
  { repeat constructor. apply acme_topics. set_solver. }
  eapply pages_end; reflexivity.
Qed.

Lemma repo_list_filters_witness :
  ∃ tr,
    repo_list sample_runtime acme (init None) "acme" (Some ["cli"]) 3 =
    Some (tr, Ok [JStr "acme/cli-kit"]).
Proof.
  destruct (repo_list_filters sample_runtime acme (init None) "acme" ["cli"]
              [[cli_kit]; [hammer]] 3 acme_pages ltac:(simpl; lia))
    as (repos & tr & Hrun & Hrepos & _).
  exists tr. rewrite Hrun, Hrepos. reflexivity.
Defined.

(** ** The requests of [repo_list] *)

Lemma append_assoc (a b c : string) : (a +:+ b) +:+ c = a +:+ b +:+ c.
Proof.
  induction a as [|x a IH]; [done |]. exact (f_equal (String x) IH).
Qed.

Lemma page_request_inj self org p q :
  page_request self org p = page_request self org q → p = q.
Proof.
  unfold page_request, request_for, page_url. intros [= H].
  by apply String.app_inj, String.app_inj, pretty_Z_inj in H.
Qed.

Lemma page_request_not_topics rt self org p full_name :
  page_request self org p ≠ topics_request rt self full_name.
Proof.
  unfold page_request, topics_request, request_for, page_url, topics_url.
  intros [= H]. rewrite append_assoc in H.
  by apply String.app_inj in H.
Qed.

Lemma page_request_in_full_trace rt self org pages :
  ∀ first p,
    page_request self org p ∈ full_trace rt self org first pages ↔
    first ≤ p ≤ first + Z.of_nat (length pages).
Proof.
  induction pages as [|items rest IH]; intros first p; cbn [full_trace length].
  - rewrite list_elem_of_singleton. split.
    + intros ->%page_request_inj. lia.
    + intros ?. f_equal. lia.
  - rewrite elem_of_app, elem_of_cons, list_elem_of_fmap, IH. split.
    + intros [[->%page_request_inj | (x & Hx & _)] | ?]; [lia | | lia].
      by apply page_request_not_topics in Hx.
    + intros ?. destruct (decide (p = first)) as [-> | ?]; [by left; left |].
      right. lia.
Qed.

(** C2. [repo_list] asks for page 1, then for each next page, and stops at
    the first page whose body is the empty list.  When the service holds
    [n] non-empty pages followed by an empty one, the run needs fuel for
    exactly [n + 1] pages, its requests are those of pages 1 to [n] each
    followed by the topics requests of its repositories, then the request
    of page [n + 1]; it asks for no page beyond [n + 1]. *)
Theorem repo_list_pagination rt srv self org topics pages :
  pages_from rt srv self org 1 pages →
  (∀ fuel, (fuel ≤ length pages)%nat →
           repo_list rt srv self org (Some topics) fuel = None) ∧
  (∀ fuel, (length pages < fuel)%nat →
           ∃ repos,
             repo_list rt srv self org (Some topics) fuel =
             Some (full_trace rt self org 1 pages, Ok repos)) ∧
  (∀ p, page_request self org p ∈ full_trace rt self org 1 pages ↔
        1 ≤ p ≤ Z.of_nat (length pages) + 1).
Proof.
  intros Hpages. split; [| split].
  - intros fuel Hfuel. unfold repo_list.
    rewrite (page_loop_pages _ _ _ _ _ _ _ Hpages).
    by rewrite decide_False by lia.
  - intros fuel Hfuel. unfold repo_list.
    rewrite (page_loop_pages _ _ _ _ _ _ _ Hpages).
    rewrite decide_True by done. by eexists.
  - intros p. rewrite page_request_in_full_trace. lia.
Qed.

Lemma repo_list_pagination_witness :
  let page n := page_request (init None) "acme" n in
  let topics_of x := topics_request sample_runtime (init None) (f_full_name x) in
  ∃ repos,
    repo_list sample_runtime acme (init None) "acme" (Some []) 3 =
    Some ([page 1; topics_of cli_kit; page 2; topics_of hammer; page 3],
          Ok repos) ∧
    page 4 ∉ [page 1; topics_of cli_kit; page 2; topics_of hammer; page 3].
Proof.
  intros page topics_of.
  destruct (repo_list_pagination sample_runtime acme (init None) "acme" []
              [[cli_kit]; [hammer]] acme_pages) as (_ & Hrun & Hreq).
  destruct (Hrun 3%nat ltac:(simpl; lia)) as (repos & Hrepos).
  exists repos. split; [exact Hrepos |].
  intros Hin. apply (Hreq 4) in Hin. simpl in Hin. lia.
Defined.

(** ** [repo_list] and the status code *)

Lemma io_bind_ext {A B} (m : io A) (k k' : A → io B) :
  (∀ a, k a = k' a) → (m ≫= k) = (m ≫= k').
Proof.
  intros H. destruct m as [tr [a|e]]; [| done].
  unfold mbind, io_mbind, io_bind. by rewrite H.
Qed.

Lemma io_then_ext {A B} (m : io A) (k k' : A → option (io B)) :
  (∀ a, k a = k' a) → io_then m k = io_then m k'.
Proof. intros H. destruct m as [tr [a|e]]; [| done]. simpl. by rewrite H. Qed.

(** Of the response, [repo_list] reads the JSON body and nothing else. *)
Lemma send_json_bind {B} srv self u (k : json → io B) :
  (response ← send srv self u; doc ← lift (json_of response); k doc) =
  (([request_for self u],
    match srv (request_for self u) with
    | Some r => json_of r
    | None => Raise TransportError
    end) ≫= k).
Proof.
  rewrite send_spec. destruct (srv _) as [r|]; [| done].
  rewrite io_bind_ok. destruct (json_of r) as [doc|e]; [| done].
  by rewrite io_bind_lift_ok, io_bind_ok.
Qed.

Lemma send_json srv self u :
  (response ← send srv self u; lift (json_of response)) =
  ([request_for self u],
   match srv (request_for self u) with
   | Some r => json_of r
   | None => Raise TransportError
   end).
Proof.
  rewrite send_spec. destruct (srv _) as [r|]; [| done].
  rewrite io_bind_ok. simpl. by destruct (json_of r).
Qed.

Lemma json_with_status st srv rq :
  match with_status st srv rq with
  | Some r => json_of r
  | None => Raise TransportError
  end =
  match srv rq with
  | Some r => json_of r
  | None => Raise TransportError
  end.
Proof. unfold with_status. by destruct (srv rq). Qed.

Lemma repo_loop_with_status rt st srv self topics repo_data :
  ∀ repos,
    repo_loop rt (with_status st srv) self topics repo_data repos =
    repo_loop rt srv self topics repo_data repos.
Proof.
  induction repo_data as [|repo rest IH]; intros repos; [done |].
  rewrite !repo_loop_cons. apply io_bind_ext. intros full_name.
  rewrite !send_json_bind, json_with_status.
  repeat (apply io_bind_ext; intros ?).
  case_decide; [apply io_bind_ext; intros ? |]; apply IH.
Qed.

Lemma page_loop_with_status rt st srv self org topics fuel :
  ∀ page repos,
    page_loop rt (with_status st srv) self org topics fuel page repos =
    page_loop rt srv self org topics fuel page repos.
Proof.
  induction fuel as [|fuel IH]; intros page repos; [done |].
  rewrite !page_loop_step, !send_json, json_with_status.
  apply io_then_ext. intros repo_data. case_match; [done |].
  destruct (py_iter repo_data) as [items|e]; [| done].
  rewrite !io_bind_lift_ok, repo_loop_with_status.
  apply io_then_ext. intros repos'. apply IH.
Qed.

Lemma no_request_error_bind {A B} (m : io A) (k : A → io B) :
  no_request_error m.2 →
  (∀ a, no_request_error (k a).2) →
  no_request_error (m ≫= k).2.
Proof.
  intros Hm Hk. destruct m as [tr [a|e]].
  - rewrite io_bind_ok. apply Hk.
  - intros msg H. simpl in H. injection H as ->. by apply (Hm msg).
Qed.

Lemma no_request_error_then {A B} (m : io A) (k : A → option (io B)) tr msg :
  no_request_error m.2 →
  (∀ a tr', k a ≠ Some (tr', Raise (RuntimeError msg))) →
  io_then m k ≠ Some (tr, Raise (RuntimeError msg)).
Proof.
  intros Hm Hk. destruct m as [tr0 [a|e]]; simpl.
  - destruct (k a) as [[tr' r]|] eqn:Hka; [| done].
    intros [= _ ->]. by eapply Hk.
  - intros [= _ ->]. by eapply Hm.
Qed.

Lemma getitem_no_request_error v k : no_request_error (getitem v k).
Proof. intros msg. destruct v; simpl; try done. by case_match. Qed.

Lemma json_of_no_request_error r : no_request_error (json_of r).
Proof. intros msg. unfold json_of. by case_match. Qed.

Lemma py_iter_no_request_error v : no_request_error (py_iter v).
Proof. intros msg. by destruct v. Qed.

Lemma str_elements_no_request_error items :
  no_request_error (str_elements items).
Proof.
  intros msg. induction items as [|[| | |s| |] rest IH]; simpl; try done.
  by destruct (str_elements rest).
Qed.

Lemma py_set_no_request_error v : no_request_error (py_set v).
Proof.
  intros msg. unfold py_set. destruct (py_iter v) eqn:Hv; simpl.
  - apply str_elements_no_request_error.
  - intros [= ->]. by destruct v.
Qed.

Lemma send_no_request_error srv self u : no_request_error (send srv self u).2.
Proof. intros msg. rewrite send_spec. simpl. by case_match. Qed.

Lemma repo_loop_no_request_error rt srv self topics repo_data :
  ∀ repos, no_request_error (repo_loop rt srv self topics repo_data repos).2.
Proof.
  induction repo_data as [|repo rest IH]; intros repos; [done |].
  rewrite repo_loop_cons.
  apply no_request_error_bind; [apply getitem_no_request_error |]; intros fn.
  apply no_request_error_bind; [apply send_no_request_error |]; intros resp.
  apply no_request_error_bind; [apply json_of_no_request_error |]; intros doc.
  apply no_request_error_bind; [apply getitem_no_request_error |]; intros td.
  apply no_request_error_bind; [by destruct topics |]; intros wanted.
  apply no_request_error_bind; [apply py_set_no_request_error |]; intros have.
  case_decide; [| apply IH].
  apply no_request_error_bind; [apply getitem_no_request_error |]; intros fn'.
  apply IH.
Qed.

Lemma page_loop_no_request_error rt srv self org topics fuel :
  ∀ page repos tr msg,
    page_loop rt srv self org topics fuel page repos
    ≠ Some (tr, Raise (RuntimeError msg)).
Proof.
  induction fuel as [|fuel IH]; intros page repos tr msg; [done |].
  rewrite page_loop_step. apply no_request_error_then.
  { apply no_request_error_bind; [apply send_no_request_error |].
    intros resp. apply json_of_no_request_error. }
  intros repo_data tr'. case_match; [done |].
  apply no_request_error_then; [| intros; apply IH].
  apply no_request_error_bind; [apply py_iter_no_request_error |].
  intros items. apply repo_loop_no_request_error.
Qed.

(** C9. [repo_list] does not look at status codes: replacing the status
    code of every response by any other leaves the run unchanged; no run
    raises [RuntimeError]; and a first page whose body is the empty list
    ends the loop with an empty result, whatever its status code. *)
Theorem repo_list_ignores_status rt srv self org topics fuel :
  (∀ st, repo_list rt (with_status st srv) self org topics fuel =
         repo_list rt srv self org topics fuel) ∧
  (∀ tr msg, repo_list rt srv self org topics fuel
             ≠ Some (tr, Raise (RuntimeError msg))) ∧
  (∀ resp,
     srv (page_request self org 1) = Some resp →
     body resp = Some (JArr []) →
     repo_list rt srv self org topics (S fuel) =
     Some ([page_request self org 1], Ok [])).
Proof.
  split; [| split].
  - intros st. apply page_loop_with_status.
  - intros tr msg. apply page_loop_no_request_error.
  - intros resp Hsrv Hbody. unfold repo_list.
    by rewrite page_loop_step, (fetch_page _ _ _ _ _ _ Hsrv Hbody).
Qed.

Lemma repo_list_ignores_status_witness :
  repo_list sample_runtime
    (always {| status_code := 500; body := Some (JArr []) |})
    (init None) "acme" (Some ["cli"]) 1 =
  Some ([page_request (init None) "acme" 1], Ok []).
Proof.
  exact (proj2 (proj2 (repo_list_ignores_status sample_runtime
                         (always {| status_code := 500; body := Some (JArr []) |})
                         (init None) "acme" (Some ["cli"]) 0))
           {| status_code := 500; body := Some (JArr []) |} eq_refl eq_refl).
Defined.

(** ** [repo_list] without [topics] *)

Lemma io_bind_ok_inv {A B} (m : io A) (k : A → io B) b :
  (m ≫= k).2 = Ok b → ∃ a, m.2 = Ok a ∧ (k a).2 = Ok b.
Proof.
  destruct m as [tr [a|e]]; [| done]. rewrite io_bind_ok. by exists a.
Qed.

Lemma repo_loop_none_ok rt srv self repo_data repos r :
  (repo_loop rt srv self None repo_data repos).2 = Ok r → repo_data = [].
Proof.
  destruct repo_data as [|repo rest]; [done |].
  rewrite repo_loop_cons.
  intros (fn & _ & H)%io_bind_ok_inv.
  apply io_bind_ok_inv in H as (resp & _ & H).
  apply io_bind_ok_inv in H as (doc & _ & H).
  apply io_bind_ok_inv in H as (td & _ & H).
  by apply io_bind_ok_inv in H as (wanted & ? & _).
Qed.

Lemma page_loop_none_ok rt srv self org fuel :
  ∀ page repos0 tr repos,
    page_loop rt srv self org None fuel page repos0 = Some (tr, Ok repos) →
    repos = repos0 ∧ Forall (λ rq, ∃ p, rq = page_request self org p) tr.
Proof.
  induction fuel as [|fuel IH]; intros page repos0 tr repos; [done |].
  rewrite page_loop_step, send_json. fold (page_request self org page).
  destruct (match srv _ with Some r => json_of r | None => _ end)
    as [data|e]; [| done].
  cbn [io_then]. destruct (is_empty_list data).
  { intros [= <- <-]. split; [done |]. repeat constructor. by exists page. }
  destruct (py_iter data) as [items|e]; [| done].
  rewrite io_bind_lift_ok.
  destruct (repo_loop rt srv self None items repos0) as [tr2 [repos'|e]] eqn:Hl;
    [| done].
  assert (items = []) as -> by (eapply repo_loop_none_ok; by rewrite Hl).
  injection Hl as <- <-. cbn [io_then].
  destruct (page_loop _ _ _ _ _ fuel _ _) as [[tr3 r]|] eqn:Hrest; [| done].
  intros [= <- ->]. apply IH in Hrest as [-> Htr]. split; [done |].
  constructor; [by exists page | done].
Qed.

(** C10. With [topics] left to its default [None], [repo_list] raises
    [TypeError] at the first repository of the first page, once the topics
    of that repository have been fetched; and no run of [repo_list] without
    [topics] that returns has met a repository: it returns the empty list
    and has asked for pages only. *)
Theorem repo_list_default_topics rt srv self org fuel
    resp repo rest full_name resp' doc names :
  srv (page_request self org 1) = Some resp →
  body resp = Some (JArr (repo :: rest)) →
  getitem repo "full_name" = Ok full_name →
  srv (topics_request rt self full_name) = Some resp' →
  body resp' = Some doc →
  getitem doc "names" = Ok names →
  repo_list rt srv self org None (S fuel) =
  Some ([page_request self org 1; topics_request rt self full_name],
        Raise TypeError) ∧
  (∀ n tr repos,
     repo_list rt srv self org None n = Some (tr, Ok repos) →
     repos = [] ∧ Forall (λ rq, ∃ p, rq = page_request self org p) tr).
Proof.
  intros Hsrv Hbody Hfn Hsrv' Hbody' Hnames. split.
  - unfold repo_list.
    rewrite page_loop_step, (fetch_page _ _ _ _ _ _ Hsrv Hbody).
    cbn [io_then is_empty_list py_iter]. rewrite io_bind_lift_ok.
    rewrite repo_loop_cons, Hfn, io_bind_lift_ok, send_json_bind.
    fold (topics_request rt self full_name). rewrite Hsrv'.
    unfold json_of. rewrite Hbody', io_bind_ok, Hnames, io_bind_lift_ok.
    reflexivity.
  - intros n tr repos. apply page_loop_none_ok.
Qed.

Lemma repo_list_default_topics_witness :
  repo_list sample_runtime acme (init None) "acme" None 3 =
  Some ([page_request (init None) "acme" 1;
         topics_request sample_runtime (init None) (JStr "acme/cli-kit")],
        Raise TypeError).
Proof.
  exact (proj1 (repo_list_default_topics sample_runtime acme (init None) "acme"
                  2 {| status_code := 200; body := Some (JArr [f_repo cli_kit]) |}
                  (f_repo cli_kit) [] (JStr "acme/cli-kit")
                  {| status_code := 200;
                     body := Some (JObj [("names", JArr [JStr "cli"; JStr "tool"])]) |}
                  (JObj [("names", JArr [JStr "cli"; JStr "tool"])])
                  (JArr [JStr "cli"; JStr "tool"])
                  eq_refl eq_refl eq_refl eq_refl eq_refl eq_refl)).
Defined.

(** ** The header map on every request *)

Lemma io_bind_trace {A B} (P : request → Prop) (m : io A) (k : A → io B) :
  Forall P m.1 → (∀ a, Forall P (k a).1) → Forall P (m ≫= k).1.
Proof.
  intros Hm Hk. destruct m as [tr [a|e]]; [| done].
  rewrite io_bind_ok. apply Forall_app. split; [done | apply Hk].
Qed.

Lemma io_then_trace {A B} (P : request → Prop) (m : io A)
    (k : A → option (io B)) tr r :
  Forall P m.1 →
  (∀ a tr' r', k a = Some (tr', r') → Forall P tr') →
  io_then m k = Some (tr, r) →
  Forall P tr.
Proof.
  intros Hm Hk. destruct m as [tr0 [a|e]]; simpl.
  - destruct (k a) as [[tr' r']|] eqn:Hka; [| done].
    intros [= <- <-]. apply Forall_app. split; [done | by eapply Hk].
  - by intros [= <- <-].
Qed.

Lemma send_trace srv self u :
  Forall (λ rq, req_headers rq = headers self) (send srv self u).1.
Proof. rewrite send_spec. by repeat constructor. Qed.

Lemma repo_loop_trace rt srv self topics repo_data :
  ∀ repos,
    Forall (λ rq, req_headers rq = headers self)
      (repo_loop rt srv self topics repo_data repos).1.
Proof.
  induction repo_data as [|repo rest IH]; intros repos; [by constructor |].
  rewrite repo_loop_cons.
  apply io_bind_trace; [by constructor |]; intros fn.
  apply io_bind_trace; [apply send_trace |]; intros resp.
  do 4 (apply io_bind_trace; [by constructor |]; intros ?).
  case_decide; [| apply IH].
  apply io_bind_trace; [by constructor |]; intros fn'. apply IH.
Qed.

Lemma page_loop_trace rt srv self org topics fuel :
  ∀ page repos tr r,
    page_loop rt srv self org topics fuel page repos = Some (tr, r) →
    Forall (λ rq, req_headers rq = headers self) tr.
Proof.
  induction fuel as [|fuel IH]; intros page repos tr r; [done |].
  rewrite page_loop_step. apply io_then_trace.
  { apply io_bind_trace; [apply send_trace |]. by constructor. }
  intros repo_data tr' r'. case_match; [by intros [= <- <-] |].
  apply io_then_trace; [| intros ???; apply IH].
  apply io_bind_trace; [by constructor |]. intros items.
  apply repo_loop_trace.
Qed.

(** Every request of every method carries the header map of the client;
    for a client made with a token, that is [Authorization: token <token>]. *)
Lemma requests_carry_client_headers rt srv self :
  let P := λ rq, req_headers rq = headers self in
  (∀ repo_name state, Forall P (pulls rt srv self repo_name state).1) ∧
  (∀ username, Forall P (user rt srv self username).1) ∧
  (∀ repo_name, Forall P (repo rt srv self repo_name).1) ∧
  (∀ org topics fuel tr r,
     repo_list rt srv self org topics fuel = Some (tr, r) → Forall P tr).
Proof.
  intros P. repeat split.
  - intros repo_name state. unfold pulls. case_decide; [| by constructor].
    rewrite send_then. by repeat constructor.
  - intros username. unfold user. rewrite send_then. by repeat constructor.
  - intros repo_name. unfold repo. rewrite send_then. by repeat constructor.
  - intros org topics fuel tr r. apply page_loop_trace.
Qed.

Lemma init_with_token_headers t :
  headers (init (Some t)) = Some [("Authorization", "token " +:+ t)].
Proof. done. Qed.

(** * Further properties of the methods *)

(** ** [user] and [repo] on a successful response *)

(** X1. On a response that [response.ok] accepts and whose body is JSON, [user]
    returns a record exactly when the body is an object that has the four
    keys [login], [name], [avatar_url] and [html_url]; the record holds
    their values under [username], [name], [avatar_url] and [url]. *)
Theorem user_returns_fields rt srv self username resp data info :
  srv (request_for self (url self +:+ "users/" +:+ username)) = Some resp →
  ok resp = true →
  body resp = Some data →
  user rt srv self username =
    ([request_for self (url self +:+ "users/" +:+ username)], Ok info)
  ↔ ∃ fields,
      data = JObj fields ∧
      assoc "login" fields = Some (user_username info) ∧
      assoc "name" fields = Some (user_name info) ∧
      assoc "avatar_url" fields = Some (user_avatar_url info) ∧
      assoc "html_url" fields = Some (user_url info).
Proof.
  intros Hsrv Hok Hbody. unfold user.
  rewrite send_then, Hsrv, Hok. unfold json_of. rewrite Hbody.
  cbn [mbind result_bind rbind]. unfold filter_user. split.
  - destruct data as [| | | | |fields]; try done. simpl.
    destruct (assoc "login" fields) as [a|] eqn:Ha; [| done].
    destruct (assoc "name" fields) as [b|] eqn:Hb; [| done].
    destruct (assoc "avatar_url" fields) as [c|] eqn:Hc; [| done].
    destruct (assoc "html_url" fields) as [d|] eqn:Hd; [| done].
    simpl. intros [= <-]. by exists fields.
  - intros (fields & -> & Ha & Hb & Hc & Hd). simpl.
    rewrite Ha, Hb, Hc, Hd. simpl. by destruct info.
Qed.

Lemma user_returns_fields_witness :
  user sample_runtime (always {| status_code := 200; body := Some octocat |})
    (init None) "octocat" =
  ([request_for (init None) "https://api.github.com/users/octocat"],
   Ok {| user_username := JStr "octocat"; user_name := JNull;
         user_avatar_url := JStr "https://avatars.example/1";
         user_url := JStr "https://github.com/octocat" |}).
Proof.
  apply (user_returns_fields sample_runtime
           (always {| status_code := 200; body := Some octocat |}) (init None)
           "octocat" {| status_code := 200; body := Some octocat |} octocat
           _ eq_refl eq_refl eq_refl).
  eexists. repeat split; reflexivity.
Defined.

(** X2. On a response that [response.ok] accepts and whose body is JSON,
    [repo] returns a record exactly when the body is an object that has
    the five keys [name], [full_name], [description], [html_url] and
    [clone_url]; the record holds their values under [name], [full_name],
    [description], [url] and [clone_url]. *)
Theorem repo_returns_fields rt srv self r resp data info :
  srv (request_for self (url self +:+ "repos/" +:+ r)) = Some resp →
  ok resp = true →
  body resp = Some data →
  repo rt srv self r =
    ([request_for self (url self +:+ "repos/" +:+ r)], Ok info)
  ↔ ∃ fields,
      data = JObj fields ∧
      assoc "name" fields = Some (repo_name info) ∧
      assoc "full_name" fields = Some (repo_full_name info) ∧
      assoc "description" fields = Some (repo_description info) ∧
      assoc "html_url" fields = Some (repo_url info) ∧
      assoc "clone_url" fields = Some (repo_clone_url info).
Proof.
  intros Hsrv Hok Hbody. unfold repo.
  rewrite send_then, Hsrv, Hok. unfold json_of. rewrite Hbody.
  cbn [mbind result_bind rbind]. unfold filter_repo. split.
  - destruct data as [| | | | |fields]; try done. simpl.
    destruct (assoc "name" fields) as [a|] eqn:Ha; [| done].
    destruct (assoc "full_name" fields) as [b|] eqn:Hb; [| done].
    destruct (assoc "description" fields) as [c|] eqn:Hc; [| done].
    destruct (assoc "html_url" fields) as [d|] eqn:Hd; [| done].
    destruct (assoc "clone_url" fields) as [e|] eqn:He; [| done].
    simpl. intros [= <-]. by exists fields.
  - intros (fields & -> & Ha & Hb & Hc & Hd & He). simpl.
    rewrite Ha, Hb, Hc, Hd, He. simpl. by destruct info.
Qed.

Lemma repo_returns_fields_witness :
  repo sample_runtime (always {| status_code := 200; body := Some hello_world |})
    (init None) "octocat/Hello-World" =
  ([request_for (init None) "https://api.github.com/repos/octocat/Hello-World"],
   Ok {| repo_name := JStr "Hello-World";
         repo_full_name := JStr "octocat/Hello-World";
         repo_description := JNull;
         repo_url := JStr "https://github.com/octocat/Hello-World";
         repo_clone_url := JStr "https://github.com/octocat/Hello-World.git" |}).
Proof.
  apply (repo_returns_fields sample_runtime
           (always {| status_code := 200; body := Some hello_world |})
           (init None) "octocat/Hello-World"
           {| status_code := 200; body := Some hello_world |} hello_world
           _ eq_refl eq_refl eq_refl).
  eexists. repeat split; reflexivity.
Defined.

(** ** Failures of the transport *)

(** X3. No method catches the failure of [requests.get]: when the request of
    [pulls], [user] or [repo], or the first page request of [repo_list],
    gets no response, the method ends with the transport's exception after
    that one request. *)
Theorem transport_failure_propagates rt srv self :
  (∀ r state,
     existsb (ci_equal state) VALID_STATES = true →
     srv (request_for self (pulls_url self r (lower state))) = None →
     pulls rt srv self r state =
     ([request_for self (pulls_url self r (lower state))], Raise TransportError)) ∧
  (∀ username,
     srv (request_for self (url self +:+ "users/" +:+ username)) = None →
     user rt srv self username =
     ([request_for self (url self +:+ "users/" +:+ username)],
      Raise TransportError)) ∧
  (∀ r,
     srv (request_for self (url self +:+ "repos/" +:+ r)) = None →
     repo rt srv self r =
     ([request_for self (url self +:+ "repos/" +:+ r)], Raise TransportError)) ∧
  (∀ org topics fuel,
     srv (page_request self org 1) = None →
     repo_list rt srv self org topics (S fuel) =
     Some ([page_request self org 1], Raise TransportError)).
Proof.
  repeat split.
  - intros r state Hv Hsrv. apply existsb_ci_equal in Hv.
    by rewrite pulls_valid, send_then, Hsrv.
  - intros username Hsrv. unfold user. by rewrite send_then, Hsrv.
  - intros r Hsrv. unfold repo. by rewrite send_then, Hsrv.
  - intros org topics fuel Hsrv. unfold repo_list.
    rewrite page_loop_step, send_json. fold (page_request self org 1).
    by rewrite Hsrv.
Qed.

Lemma transport_failure_propagates_witness :
  pulls sample_runtime unreachable (init None) "octocat/hello" "open" =
  ([request_for (init None)
      "https://api.github.com/repos/octocat/hello/pulls?state=open"],
   Raise TransportError) ∧
  repo_list sample_runtime unreachable (init None) "acme" (Some []) 1 =
  Some ([page_request (init None) "acme" 1], Raise TransportError).
Proof.
  destruct (transport_failure_propagates sample_runtime unreachable (init None))
    as (Hpulls & _ & _ & Hlist).
  split.
  - exact (Hpulls "octocat/hello" "open" eq_refl eq_refl).
  - exact (Hlist "acme" (Some []) 0%nat eq_refl).
Defined.

(** ** The header map of a constructed client *)

(** X4. A client made by the constructor sends the one header
    [Authorization: token <token>] on every request of every method, with
    [None] rendered as text when no token was given; it never calls
    [requests.get] without headers. *)
Theorem constructed_client_headers rt srv token :
  let self := init token in
  let P := λ rq, req_headers rq = Some [("Authorization", format_token token)] in
  (∀ r state, Forall P (pulls rt srv self r state).1) ∧
  (∀ username, Forall P (user rt srv self username).1) ∧
  (∀ r, Forall P (repo rt srv self r).1) ∧
  (∀ org topics fuel tr res,
     repo_list rt srv self org topics fuel = Some (tr, res) → Forall P tr).
Proof.
  intros self P.
  destruct (requests_carry_client_headers rt srv self) as (H1 & H2 & H3 & H4).
  repeat split; intros; eauto.
Qed.

(** ** The in-place loop of [pulls] *)

Lemma pulls_loop_comprehension visited items :
  pulls_loop (seq (length visited) (length items))
    ((Rec <$> visited) ++ (Item <$> items)) =
  (recs ← comprehension pull_record items; Ok (Rec <$> (visited ++ recs))).
Proof.
  revert visited. induction items as [|item items IH]; intros visited.
  - simpl. by rewrite !app_nil_r.
  - rewrite fmap_cons. cbn [length seq pulls_loop comprehension].
    rewrite list_lookup_middle by (by rewrite length_fmap).
    destruct (pull_record item) as [r|e]; [| done].
    cbn [mbind result_bind rbind].
    replace (length visited) with (length (Rec <$> visited) + 0)%nat at 2
      by (rewrite length_fmap; lia).
    rewrite insert_app_r. cbn [insert list_insert].
    specialize (IH (visited ++ [r])).
    rewrite length_app, Nat.add_comm, fmap_app, <- !app_assoc in IH.
    cbn [length Nat.add fmap list_fmap app] in IH. rewrite IH.
    destruct (comprehension pull_record items) as [recs|e]; [| done].
    cbn [mbind result_bind rbind]. by rewrite <- app_assoc.
Qed.

Lemma pulls_on_array rt srv self r state resp items :
  existsb (ci_equal state) VALID_STATES = true →
  srv (request_for self (pulls_url self r (lower state))) = Some resp →
  ok resp = true →
  body resp = Some (JArr items) →
  pulls rt srv self r state =
  ([request_for self (pulls_url self r (lower state))],
   recs ← comprehension pull_record items; Ok (Records (Rec <$> recs))).
Proof.
  intros Hv Hsrv Hok Hbody. apply existsb_ci_equal in Hv.
  rewrite pulls_valid, send_then, Hsrv, Hok by done.
  unfold json_of. rewrite Hbody. cbn [mbind result_bind rbind filter_pulls].
  pose proof (pulls_loop_comprehension [] items) as Hloop.
  cbn [length fmap list_fmap app] in Hloop. rewrite Hloop.
  by destruct (comprehension pull_record items).
Qed.

Lemma comprehension_Ok {A B} (f : A → result B) l ys :
  comprehension f l = Ok ys ↔ Forall2 (λ x y, f x = Ok y) l ys.
Proof.
  revert ys. induction l as [|x l IH]; intros ys; simpl.
  - split; [intros [= <-]; constructor | by inversion 1].
  - destruct (f x) as [y|e] eqn:Hx; simpl.
    + destruct (comprehension f l) as [ys'|e]; simpl.
      * split.
        -- intros [= <-]. constructor; [done | by apply IH].
        -- inversion 1 as [|? y' ? ys'' Hy Hys]; subst.
           apply IH in Hys. congruence.
      * split; [done |]. inversion 1 as [|? y' ? ys'' Hy Hys]; subst.
        by apply IH in Hys.
    + split; [done |]. inversion 1; congruence.
Qed.

Lemma comprehension_first_raise {A B} (f : A → result B) good bad rest e :
  Forall (λ x, ∃ y, f x = Ok y) good →
  f bad = Raise e →
  comprehension f (good ++ bad :: rest) = Raise e.
Proof.
  intros Hgood Hbad. induction Hgood as [|x good [y Hy] _ IH]; simpl.
  - by rewrite Hbad.
  - by rewrite Hy, IH.
Qed.

(** X5. On an array body the loop that overwrites [data[index]] amounts to
    building one record per item: a list returned by [pulls] has the
    length of the array, every element of it is the record of the item at
    its index, and none is an item left as it came. *)
Theorem pulls_rewrites_every_item rt srv self r state resp items l :
  existsb (ci_equal state) VALID_STATES = true →
  srv (request_for self (pulls_url self r (lower state))) = Some resp →
  ok resp = true →
  body resp = Some (JArr items) →
  (pulls rt srv self r state).2 = Ok (Records l) →
  length l = length items ∧
  ∀ i item, items !! i = Some item →
            ∃ record, l !! i = Some (Rec record) ∧ pull_record item = Ok record.
Proof.
  intros Hv Hsrv Hok Hbody.
  rewrite (pulls_on_array _ _ _ _ _ _ _ Hv Hsrv Hok Hbody). simpl.
  destruct (comprehension pull_record items) as [recs|e] eqn:Hc; [| done].
  simpl. intros [= <-]. apply comprehension_Ok in Hc. split.
  - rewrite length_fmap. symmetry. by eapply Forall2_length.
  - intros i item Hi.
    destruct (Forall2_lookup_l _ _ _ _ _ Hc Hi) as (record & Hr & Hrec).
    exists record. by rewrite list_lookup_fmap, Hr.
Qed.

Lemma pulls_rewrites_every_item_witness :
  let resp := {| status_code := 200;
                 body := Some (JArr [sample_pull; sample_pull]) |} in
  length [Rec sample_record; Rec sample_record] = 2%nat ∧
  ∀ i item, [sample_pull; sample_pull] !! i = Some item →
            ∃ record, [Rec sample_record; Rec sample_record] !! i
                      = Some (Rec record) ∧ pull_record item = Ok record.
Proof.
  intros resp.
  exact (pulls_rewrites_every_item sample_runtime (always resp) (init None)
           "octocat/hello" "all" resp [sample_pull; sample_pull]
           [Rec sample_record; Rec sample_record]
           eq_refl eq_refl eq_refl eq_refl eq_refl).
Defined.

(** X6. [pulls] returns all the records or none: when the record of an item
    cannot be built, the call ends with the exception of the first such
    item, whatever the items before and after it. *)
Theorem pulls_first_bad_item rt srv self r state resp good bad rest e :
  existsb (ci_equal state) VALID_STATES = true →
  srv (request_for self (pulls_url self r (lower state))) = Some resp →
  ok resp = true →
  body resp = Some (JArr (good ++ bad :: rest)) →
  Forall (λ item, ∃ record, pull_record item = Ok record) good →
  pull_record bad = Raise e →
  pulls rt srv self r state =
  ([request_for self (pulls_url self r (lower state))], Raise e).
Proof.
  intros Hv Hsrv Hok Hbody Hgood Hbad.
  rewrite (pulls_on_array _ _ _ _ _ _ _ Hv Hsrv Hok Hbody).
  by rewrite (comprehension_first_raise _ _ _ _ _ Hgood Hbad).
Qed.

Lemma pulls_first_bad_item_witness :
  let bad := JObj [("user", JObj [("login", JStr "ghost")]);
                   ("created_at", JStr "2023-01-01T12:00:00Z")] in
  let resp := {| status_code := 200;
                 body := Some (JArr [sample_pull; bad; sample_pull]) |} in
  pulls sample_runtime (always resp) (init None) "octocat/hello" "all" =
  ([request_for (init None)
      "https://api.github.com/repos/octocat/hello/pulls?state=all"],
   Raise KeyError).
Proof.
  intros bad resp.
  apply (pulls_first_bad_item sample_runtime (always resp) (init None)
           "octocat/hello" "all" resp [sample_pull] bad [sample_pull] KeyError
           eq_refl eq_refl eq_refl eq_refl).
  - repeat constructor. by exists sample_record.
  - reflexivity.
Defined.

(** ** Pages that are not lists *)

(** X7. A page whose body is a JSON object with at least one key, as the body
    of an error reply is, is not the empty list: [repo_list] iterates over
    its keys and ends with [TypeError] at the subscript of the first key,
    having issued the page request only. *)
Theorem repo_list_object_page rt srv self org topics fuel resp k v fields :
  srv (page_request self org 1) = Some resp →
  body resp = Some (JObj ((k, v) :: fields)) →
  repo_list rt srv self org topics (S fuel) =
  Some ([page_request self org 1], Raise TypeError).
Proof.
  intros Hsrv Hbody. unfold repo_list.
  by rewrite page_loop_step, (fetch_page _ _ _ _ _ _ Hsrv Hbody).
Qed.

Lemma repo_list_object_page_witness :
  repo_list sample_runtime
    (always {| status_code := 404;
               body := Some (JObj [("message", JStr "Not Found")]) |})
    (init None) "nobody" (Some []) 5 =
  Some ([page_request (init None) "nobody" 1], Raise TypeError).
Proof.
  exact (repo_list_object_page sample_runtime
           (always {| status_code := 404;
                      body := Some (JObj [("message", JStr "Not Found")]) |})
           (init None) "nobody" (Some []) 4
           {| status_code := 404;
              body := Some (JObj [("message", JStr "Not Found")]) |}
           "message" (JStr "Not Found") [] eq_refl eq_refl).
Defined.

Lemma page_loop_hollow rt srv self org topics fuel :
  ∀ page repos,
    (∀ p, page ≤ p →
          ∃ resp data, srv (page_request self org p) = Some resp ∧
                       body resp = Some data ∧
                       (data = JObj [] ∨ data = JStr EmptyString)) →
    page_loop rt srv self org topics fuel page repos = None.
Proof.
  induction fuel as [|fuel IH]; intros page repos Hpages; [done |].
  destruct (Hpages page ltac:(lia)) as (resp & data & Hsrv & Hbody & Hdata).
  rewrite page_loop_step, (fetch_page _ _ _ _ _ _ Hsrv Hbody).
  assert (page_loop rt srv self org topics fuel (page + 1) repos = None) as Hrest.
  { apply IH. intros p Hp. apply Hpages. lia. }
  destruct Hdata as [-> | ->]; cbn [io_then is_empty_list py_iter];
    rewrite io_bind_lift_ok; simpl; by rewrite Hrest.
Qed.

(** X8. Only the empty list ends the loop.  When every page is an empty JSON
    object or an empty string, bodies over which the inner loop does not
    run either, [repo_list] asks for page after page and never returns:
    no amount of fuel gives a result. *)
Theorem repo_list_never_returns rt srv self org topics :
  (∀ p, 1 ≤ p →
        ∃ resp data, srv (page_request self org p) = Some resp ∧
                     body resp = Some data ∧
                     (data = JObj [] ∨ data = JStr EmptyString)) →
  ∀ fuel, repo_list rt srv self org topics fuel = None.
Proof. intros Hpages fuel. by apply page_loop_hollow. Qed.

Lemma repo_list_never_returns_witness :
  repo_list sample_runtime hollow (init None) "acme" (Some []) 50 = None.
Proof.
  apply (repo_list_never_returns sample_runtime hollow (init None) "acme"
           (Some [])).
  intros p _. exists {| status_code := 200; body := Some (JObj []) |}, (JObj []).
  split; [reflexivity |]. split; [reflexivity |]. by left.
Defined.

(** ** How the inner loop composes *)

Lemma io_bind_assoc {A B C} (m : io A) (k : A → io B) (k' : B → io C) :
  ((m ≫= k) ≫= k') = (m ≫= λ a, k a ≫= k').
Proof.
  destruct m as [tr [a|e]]; [| done].
  unfold mbind, io_mbind, io_bind.
  destruct (k a) as [tr' [b|e]]; [| done].
  destruct (k' b) as [tr'' c]. by rewrite app_assoc.
Qed.

Lemma repo_loop_app rt srv self topics l1 l2 :
  ∀ repos,
    repo_loop rt srv self topics (l1 ++ l2) repos =
    (repos' ← repo_loop rt srv self topics l1 repos;
     repo_loop rt srv self topics l2 repos').
Proof.
  induction l1 as [|repo l1 IH]; intros repos.
  - change (repo_loop rt srv self topics [] repos) with (lift (Ok repos)).
    by rewrite io_bind_lift_ok.
  - rewrite <- app_comm_cons, !repo_loop_cons.
    rewrite !io_bind_assoc. apply io_bind_ext; intros fn.
    rewrite !io_bind_assoc. apply io_bind_ext; intros resp.
    do 4 (rewrite !io_bind_assoc; apply io_bind_ext; intros ?).
    case_decide; [| apply IH].
    rewrite !io_bind_assoc. apply io_bind_ext; intros fn'. apply IH.
Qed.

Lemma page_loop_prefix rt srv self org topics pages :
  ∀ page, pages_prefix rt srv self org page pages →
  ∀ fuel repos,
    page_loop rt srv self org (Some topics) (length pages + fuel) page repos =
    match
      page_loop rt srv self org (Some topics) fuel
        (page + Z.of_nat (length pages))
        (repos ++ (f_full_name <$> filter (matches topics) (concat pages)))
    with
    | Some (tr, r) => Some (prefix_trace rt self org page pages ++ tr, r)
    | None => None
    end.
Proof.
  intros page H.
  induction H as [page|page resp items rest Hsrv Hbody Hne Htopics _ IH];
    intros fuel repos.
  - cbn [length concat filter fmap list_fmap prefix_trace Nat.add].
    rewrite filter_nil, fmap_nil, app_nil_r, Z.add_0_r.
    by destruct (page_loop _ _ _ _ _ _ _ _) as [[tr r]|].
  - cbn [length Nat.add]. rewrite page_loop_step.
    rewrite (fetch_page _ _ _ _ _ _ Hsrv Hbody). cbn [io_then].
    assert (is_empty_list (JArr (f_repo <$> items)) = false) as ->
      by (by destruct items).
    cbn [py_iter]. rewrite io_bind_lift_ok.
    rewrite (repo_loop_selects _ _ _ _ _ _ Htopics). cbn [io_then].
    rewrite IH. cbn [concat prefix_trace].
    replace (page + 1 + Z.of_nat (length rest))
      with (page + Z.of_nat (S (length rest))) by lia.
    rewrite filter_app, fmap_app, <- !app_assoc.
    destruct (page_loop _ _ _ _ _ _ _ _) as [[tr r]|]; [| done].
    by rewrite <- !app_assoc.
Qed.

Lemma page_loop_topics_failure rt srv self org topics fuel page repos
    resp good bad rest full_name resp' doc e :
  srv (page_request self org page) = Some resp →
  body resp = Some (JArr ((f_repo <$> good) ++ bad :: rest)) →
  Forall (has_topics rt srv self) good →
  getitem bad "full_name" = Ok full_name →
  srv (topics_request rt self full_name) = Some resp' →
  body resp' = Some doc →
  getitem doc "names" = Raise e →
  page_loop rt srv self org (Some topics) (S fuel) page repos =
  Some (page_request self org page
          :: ((λ x, topics_request rt self (f_full_name x)) <$> good)
          ++ [topics_request rt self full_name],
        Raise e).
Proof.
  intros Hsrv Hbody Hgood Hfn Hsrv' Hbody' Hnames.
  rewrite page_loop_step, (fetch_page _ _ _ _ _ _ Hsrv Hbody).
  cbn [io_then].
  assert (is_empty_list (JArr ((f_repo <$> good) ++ bad :: rest)) = false)
    as -> by (by destruct good).
  cbn [py_iter]. rewrite io_bind_lift_ok, repo_loop_app.
  rewrite (repo_loop_selects _ _ _ _ _ _ Hgood), io_bind_ok.
  rewrite repo_loop_cons, Hfn, io_bind_lift_ok, send_json_bind.
  fold (topics_request rt self full_name). rewrite Hsrv'.
  unfold json_of. rewrite Hbody', io_bind_ok, Hnames. reflexivity.
Qed.

(** X9. Called with a list of topics, [repo_list] ends with the exception of
    the first topics document in which the lookup of [names] raises,
    whichever page the repository is on and wherever on that page: when
    the pages before it and the repositories before it on its page are
    well formed, the run issues their requests, then the topics request of
    that repository, and raises; the names gathered so far are not
    returned and no further request is issued. *)
Theorem repo_list_topics_failure rt srv self org topics fuel pages
    resp good bad rest full_name resp' doc e :
  pages_prefix rt srv self org 1 pages →
  srv (page_request self org (1 + Z.of_nat (length pages))) = Some resp →
  body resp = Some (JArr ((f_repo <$> good) ++ bad :: rest)) →
  Forall (has_topics rt srv self) good →
  getitem bad "full_name" = Ok full_name →
  srv (topics_request rt self full_name) = Some resp' →
  body resp' = Some doc →
  getitem doc "names" = Raise e →
  (length pages < fuel)%nat →
  repo_list rt srv self org (Some topics) fuel =
  Some (prefix_trace rt self org 1 pages
          ++ page_request self org (1 + Z.of_nat (length pages))
          :: ((λ x, topics_request rt self (f_full_name x)) <$> good)
          ++ [topics_request rt self full_name],
        Raise e).
Proof.
  intros Hpages Hsrv Hbody Hgood Hfn Hsrv' Hbody' Hnames Hfuel.
  unfold repo_list.
  replace fuel with (length pages + S (fuel - length pages - 1))%nat by lia.
  rewrite (page_loop_prefix _ _ _ _ _ _ _ Hpages).
  by rewrite (page_loop_topics_failure _ _ _ _ _ _ _ _ _ _ _ _ _ _ _ _
                Hsrv Hbody Hgood Hfn Hsrv' Hbody' Hnames).
Qed.

Lemma repo_list_topics_failure_witness :
  let limited := JObj [("message", JStr "API rate limit exceeded")] in
  let srv :=
    serve
      [("https://api.github.com/users/acme/repos?per_page=100&page=1",
        JArr [f_repo cli_kit]);
       ("https://api.github.com/users/acme/repos?per_page=100&page=2",
        JArr [f_repo cli_kit; f_repo hammer]);
       ("https://api.github.com/repos/acme/cli-kit/topics",
        JObj [("names", JArr [JStr "cli"; JStr "tool"])]);
       ("https://api.github.com/repos/acme/hammer/topics", limited)] in
  repo_list sample_runtime srv (init None) "acme" (Some ["cli"]) 2 =
  Some ([page_request (init None) "acme" 1;
         topics_request sample_runtime (init None) (JStr "acme/cli-kit");
         page_request (init None) "acme" 2;
         topics_request sample_runtime (init None) (JStr "acme/cli-kit");
         topics_request sample_runtime (init None) (JStr "acme/hammer")],
        Raise KeyError).
Proof.
  intros limited srv.
  assert (has_topics sample_runtime srv (init None) cli_kit) as Hkit.
  { split; [reflexivity |]. eexists _, _. repeat split; reflexivity. }
  assert (pages_prefix sample_runtime srv (init None) "acme" 1 [[cli_kit]])
    as Hpages.
  { eapply prefix_next; [reflexivity | reflexivity | done | | apply prefix_end].
    constructor; [exact Hkit | constructor]. }
  apply (repo_list_topics_failure sample_runtime srv (init None) "acme" ["cli"]
           2 [[cli_kit]]
           {| status_code := 200;
              body := Some (JArr [f_repo cli_kit; f_repo hammer]) |}
           [cli_kit] (f_repo hammer) [] (JStr "acme/hammer")
           {| status_code := 200; body := Some limited |} limited KeyError
           Hpages eq_refl eq_refl);
    [constructor; [exact Hkit | constructor] | reflexivity.. | simpl; lia].
Defined.

(** ** The cost of [repo_list] *)

Lemma length_full_trace rt self org pages :
  ∀ page, length (full_trace rt self org page pages) =
          (length pages + 1 + length (concat pages))%nat.
Proof.
  induction pages as [|items rest IH]; intros page; [done |].
  cbn [full_trace concat length]. rewrite length_app, length_cons, length_fmap.
  rewrite IH, length_app. lia.
Qed.

(** X10. [repo_list] issues one request per page, the empty last page included,
    and one request per repository listed: with [n] non-empty pages that
    hold [r] repositories in all, a run issues [n + 1 + r] requests. *)
Theorem repo_list_request_count rt srv self org topics pages fuel :
  pages_from rt srv self org 1 pages →
  (length pages < fuel)%nat →
  ∃ tr repos,
    repo_list rt srv self org (Some topics) fuel = Some (tr, Ok repos) ∧
    length tr = (length pages + 1 + length (concat pages))%nat.
Proof.
  intros Hpages Hfuel. unfold repo_list.
  rewrite (page_loop_pages _ _ _ _ _ _ _ Hpages), decide_True by done.
  eexists _, _. split; [done |]. apply length_full_trace.
Qed.

Lemma repo_list_request_count_witness :
  ∃ tr repos,
    repo_list sample_runtime acme (init None) "acme" (Some ["tool"]) 3 =
    Some (tr, Ok repos) ∧ length tr = 5%nat.
Proof.
  exact (repo_list_request_count sample_runtime acme (init None) "acme"
           ["tool"] [[cli_kit]; [hammer]] 3 acme_pages ltac:(simpl; lia)).
Defined.

(** ** The [topics] argument as a set *)

Lemma repo_loop_same_set rt srv self topics topics' repo_data :
  list_to_set topics =@{gset string} list_to_set topics' →
  ∀ repos,
    repo_loop rt srv self (Some topics) repo_data repos =
    repo_loop rt srv self (Some topics') repo_data repos.
Proof.
  intros Hset. induction repo_data as [|repo rest IH]; intros repos; [done |].
  rewrite !repo_loop_cons.
  do 4 (apply io_bind_ext; intros ?).
  cbn [topics_set]. rewrite Hset.
  do 2 (apply io_bind_ext; intros ?).
  case_decide; [apply io_bind_ext; intros ? |]; apply IH.
Qed.

Lemma page_loop_same_set rt srv self org topics topics' fuel :
  list_to_set topics =@{gset string} list_to_set topics' →
  ∀ page repos,
    page_loop rt srv self org (Some topics) fuel page repos =
    page_loop rt srv self org (Some topics') fuel page repos.
Proof.
  intros Hset. induction fuel as [|fuel IH]; intros page repos; [done |].
  rewrite !page_loop_step. apply io_then_ext. intros repo_data.
  case_match; [done |].
  destruct (py_iter repo_data) as [items|e]; [| done].
  rewrite !io_bind_lift_ok, (repo_loop_same_set _ _ _ _ _ _ Hset).
  apply io_then_ext. intros repos'. apply IH.
Qed.

(** X11. [repo_list] uses [topics] through [set(topics)] only: two lists with
    the same elements, in whatever order and however often repeated, give
    the same run against any service, the same requests and the same
    outcome. *)
Theorem repo_list_topics_as_set rt srv self org topics topics' fuel :
  (∀ t, t ∈ topics ↔ t ∈ topics') →
  repo_list rt srv self org (Some topics) fuel =
  repo_list rt srv self org (Some topics') fuel.
Proof.
  intros Hsame. apply page_loop_same_set.
  apply set_eq. intros t. by rewrite !elem_of_list_to_set.
Qed.

Lemma repo_list_topics_as_set_witness :
  repo_list sample_runtime acme (init None) "acme" (Some ["tool"; "cli"; "tool"]) 3 =
  repo_list sample_runtime acme (init None) "acme" (Some ["cli"; "tool"]) 3.
Proof.
  apply (repo_list_topics_as_set sample_runtime acme (init None) "acme"
           ["tool"; "cli"; "tool"] ["cli"; "tool"] 3).
  intros t. rewrite !elem_of_cons, !elem_of_nil. tauto.
Defined.

Lemma filter_sublist_impl {A} (P Q : A → Prop)
    `{!∀ x, Decision (P x)} `{!∀ x, Decision (Q x)} (l : list A) :
  (∀ x, P x → Q x) → filter P l `sublist_of` filter Q l.
Proof.
  intros HPQ. induction l as [|x l IH]; [done |].
  rewrite !filter_cons. destruct (decide (P x)) as [HP|HP].
  - rewrite decide_True by auto. by constructor.
  - destruct (decide (Q x)); [by constructor | done].
Qed.

Lemma fmap_sublist {A B} (f : A → B) (l k : list A) :
  l `sublist_of` k → f <$> l `sublist_of` f <$> k.
Proof. induction 1; simpl; by constructor. Qed.

(** X12. Asking for more topics can only drop repositories: when every element
    of [topics] is among [topics'], the list returned for [topics'] is a
    sublist, in the same order, of the list returned for [topics]. *)
Theorem repo_list_more_topics rt srv self org topics topics' pages fuel :
  pages_from rt srv self org 1 pages →
  (length pages < fuel)%nat →
  (∀ t, t ∈ topics → t ∈ topics') →
  ∃ tr repos repos',
    repo_list rt srv self org (Some topics) fuel = Some (tr, Ok repos) ∧
    repo_list rt srv self org (Some topics') fuel = Some (tr, Ok repos') ∧
    repos' `sublist_of` repos.
Proof.
  intros Hpages Hfuel Hsub. unfold repo_list.
  rewrite !(page_loop_pages _ _ _ _ _ _ _ Hpages), !decide_True by done.
  eexists _, _, _. split; [done |]. split; [done |]. simpl.
  apply fmap_sublist, filter_sublist_impl.
  intros x. unfold matches. rewrite !elem_of_subseteq.
  setoid_rewrite elem_of_list_to_set. auto.
Qed.

Lemma repo_list_more_topics_witness :
  ∃ tr repos repos',
    repo_list sample_runtime acme (init None) "acme" (Some ["tool"]) 3 =
    Some (tr, Ok repos) ∧
    repo_list sample_runtime acme (init None) "acme" (Some ["tool"; "cli"]) 3 =
    Some (tr, Ok repos') ∧
    repos' `sublist_of` repos.
Proof.
  apply (repo_list_more_topics sample_runtime acme (init None) "acme"
           ["tool"] ["tool"; "cli"] [[cli_kit]; [hammer]] 3 acme_pages
           ltac:(simpl; lia)).
  intros t. rewrite !elem_of_cons, !elem_of_nil. tauto.
Defined.

(** ** Timestamps *)

Lemma digit_digit_char k : 0 ≤ k ≤ 9 → digit (digit_char k) = Some k.
Proof.
  intros Hk. unfold digit, digit_char.
  rewrite N_ascii_embedding by lia. rewrite Z2N.id by lia.
  rewrite (proj2 (Z.leb_le 48 (48 + k))), (proj2 (Z.leb_le (48 + k) 57)) by lia.
  simpl. f_equal. lia.
Qed.

Lemma digit_not_sign c k :
  digit c = Some k → c ≠ "+"%char ∧ c ≠ "-"%char.
Proof. intros H. split; intros ->; vm_compute in H; discriminate. Qed.

Lemma split_tz_digit c k rest :
  digit c = Some k →
  split_tz (String c rest) = (String c (split_tz rest).1, (split_tz rest).2).
Proof.
  intros [Hp Hm]%digit_not_sign. cbn [split_tz].
  rewrite !decide_False by done. by destruct (split_tz rest).
Qed.

Lemma split_tz_colon rest :
  split_tz (String ":" rest) = (String ":" (split_tz rest).1, (split_tz rest).2).
Proof.
  cbn [split_tz]. rewrite !decide_False by done. by destruct (split_tz rest).
Qed.

Lemma parse_time_utc h1 h2 m1 m2 s1 s2 kh1 kh2 km1 km2 ks1 ks2 :
  digit h1 = Some kh1 → digit h2 = Some kh2 →
  digit m1 = Some km1 → digit m2 = Some km2 →
  digit s1 = Some ks1 → digit s2 = Some ks2 →
  parse_isoformat_time
    (String h1 (String h2 (String ":" (String m1 (String m2 (String ":"
       (String s1 (String s2 "+00:00")))))))) =
  Some (10 * (10 * 0 + kh1) + kh2, 10 * (10 * 0 + km1) + km2,
        10 * (10 * 0 + ks1) + ks2, 0, Some 0).
Proof.
  intros Hh1 Hh2 Hm1 Hm2 Hs1 Hs2. unfold parse_isoformat_time.
  rewrite (split_tz_digit _ _ _ Hh1), (split_tz_digit _ _ _ Hh2), split_tz_colon,
    (split_tz_digit _ _ _ Hm1), (split_tz_digit _ _ _ Hm2), split_tz_colon,
    (split_tz_digit _ _ _ Hs1), (split_tz_digit _ _ _ Hs2).
  change (split_tz "+00:00") with (EmptyString, Some (1, "00:00")).
  cbn [fst snd]. unfold parse_hh_mm_ss_ff. cbn [digits].
  rewrite Hh1, Hh2. cbn [mbind option_bind expect]. rewrite decide_True by done.
  cbn [mbind option_bind digits]. rewrite Hm1, Hm2.
  cbn [mbind option_bind expect]. rewrite decide_True by done.
  cbn [mbind option_bind digits]. rewrite Hs1, Hs2.
  reflexivity.
Qed.

Lemma parse_date_digits y1 y2 y3 y4 m1 m2 d1 d2 ky1 ky2 ky3 ky4 km1 km2 kd1 kd2 :
  digit y1 = Some ky1 → digit y2 = Some ky2 →
  digit y3 = Some ky3 → digit y4 = Some ky4 →
  digit m1 = Some km1 → digit m2 = Some km2 →
  digit d1 = Some kd1 → digit d2 = Some kd2 →
  parse_isoformat_date
    (String y1 (String y2 (String y3 (String y4 (String "-"
       (String m1 (String m2 (String "-" (String d1 (String d2 "")))))))))) =
  Some (10 * (10 * (10 * (10 * 0 + ky1) + ky2) + ky3) + ky4,
        10 * (10 * 0 + km1) + km2, 10 * (10 * 0 + kd1) + kd2).
Proof.
  intros Hy1 Hy2 Hy3 Hy4 Hm1 Hm2 Hd1 Hd2. unfold parse_isoformat_date.
  cbn [digits]. rewrite Hy1, Hy2, Hy3, Hy4.
  cbn [mbind option_bind expect]. rewrite decide_True by done.
  cbn [mbind option_bind digits]. rewrite Hm1, Hm2.
  cbn [mbind option_bind expect]. rewrite decide_True by done.
  cbn [mbind option_bind digits]. rewrite Hd1, Hd2.
  reflexivity.
Qed.

Lemma days_in_month_le y m : days_in_month y m ≤ 31.
Proof. unfold days_in_month. repeat case_match; lia. Qed.

(** X13. Every UTC instant with whole seconds, written the way the API writes
    it ([YYYY-MM-DDTHH:MM:SSZ]), is read back by [pulls] as that instant
    with a UTC offset of zero. *)
Theorem github_timestamp_parses d :
  valid_datetime d = true →
  microsecond d = 0 →
  tzinfo d = Some 0 →
  parse_created_at (JStr (github_timestamp d)) = Ok d.
Proof.
  destruct d as [y m dd h mi s us tz]. cbn [microsecond tzinfo].
  intros Hv -> ->. pose proof Hv as Hr. unfold valid_datetime in Hr.
  cbn [year month day hour minute second microsecond tzinfo] in Hr.
  rewrite !andb_true_iff, !Z.leb_le in Hr.
  pose proof (days_in_month_le y m).
  unfold parse_created_at, github_timestamp, four_digits, two_digits.
  cbn [year month day hour minute second].
  cbv [String.append]. cbn [drop_last]. cbv [String.append].
  unfold fromisoformat.
  cbn [String.substring string_drop String.length Nat.sub].
  rewrite (parse_date_digits _ _ _ _ _ _ _ _
             (y / 100 / 10) ((y / 100) mod 10) (y mod 100 / 10) ((y mod 100) mod 10)
             (m / 10) (m mod 10) (dd / 10) (dd mod 10))
    by (apply digit_digit_char; Z.to_euclidean_division_equations; lia).
  rewrite (parse_time_utc _ _ _ _ _ _
             (h / 10) (h mod 10) (mi / 10) (mi mod 10) (s / 10) (s mod 10))
    by (apply digit_digit_char; Z.to_euclidean_division_equations; lia).
  match goal with
  | |- (if valid_datetime ?d' then _ else _) = Ok ?d =>
      replace d' with d by (f_equal; Z.to_euclidean_division_equations; lia)
  end.
  by rewrite Hv.
Qed.

Lemma github_timestamp_parses_witness :
  parse_created_at (JStr "2024-02-29T23:59:59Z") =
  Ok {| year := 2024; month := 2; day := 29; hour := 23; minute := 59;
        second := 59; microsecond := 0; tzinfo := Some 0 |}.
Proof.
  exact (github_timestamp_parses
           {| year := 2024; month := 2; day := 29; hour := 23; minute := 59;
              second := 59; microsecond := 0; tzinfo := Some 0 |}
           eq_refl eq_refl eq_refl).
Defined.

(** ** Bodies that are not JSON *)

(** X14. [response.json()] is called on the success path and on the error path
    alike: a response whose body is not JSON makes [pulls], [user] and
    [repo] raise the decoder's exception whatever the status code, and so
    does [repo_list] on its first page. *)
Theorem body_not_json_raises rt srv self resp :
  body resp = None →
  (∀ r state,
     existsb (ci_equal state) VALID_STATES = true →
     srv (request_for self (pulls_url self r (lower state))) = Some resp →
     pulls rt srv self r state =
     ([request_for self (pulls_url self r (lower state))], Raise JSONDecodeError)) ∧
  (∀ username,
     srv (request_for self (url self +:+ "users/" +:+ username)) = Some resp →
     user rt srv self username =
     ([request_for self (url self +:+ "users/" +:+ username)],
      Raise JSONDecodeError)) ∧
  (∀ r,
     srv (request_for self (url self +:+ "repos/" +:+ r)) = Some resp →
     repo rt srv self r =
     ([request_for self (url self +:+ "repos/" +:+ r)], Raise JSONDecodeError)) ∧
  (∀ org topics fuel,
     srv (page_request self org 1) = Some resp →
     repo_list rt srv self org topics (S fuel) =
     Some ([page_request self org 1], Raise JSONDecodeError)).
Proof.
  intros Hbody.
  assert (json_of resp = Raise JSONDecodeError) as Hjson
    by (unfold json_of; by rewrite Hbody).
  assert (∀ A (f : json → result A),
            (if ok resp then data ← json_of resp; f data
             else (@raise_request_error A rt resp).2) = Raise JSONDecodeError)
    as Hboth.
  { intros A f. rewrite raise_request_error_spec, Hjson. by destruct (ok resp). }
  repeat split.
  - intros r state Hv Hsrv. apply existsb_ci_equal in Hv.
    by rewrite pulls_valid, send_then, Hsrv, Hboth.
  - intros username Hsrv. unfold user. by rewrite send_then, Hsrv, Hboth.
  - intros r Hsrv. unfold repo. by rewrite send_then, Hsrv, Hboth.
  - intros org topics fuel Hsrv. unfold repo_list.
    rewrite page_loop_step, send_json. fold (page_request self org 1).
    by rewrite Hsrv, Hjson.
Qed.

Lemma body_not_json_raises_witness :
  let gateway := {| status_code := 502; body := None |} in
  let page := {| status_code := 200; body := None |} in
  repo sample_runtime (always gateway) (init None) "octocat/hello" =
  ([request_for (init None) "https://api.github.com/repos/octocat/hello"],
   Raise JSONDecodeError) ∧
  repo_list sample_runtime (always page) (init None) "acme" None 2 =
  Some ([page_request (init None) "acme" 1], Raise JSONDecodeError).
Proof.
  intros gateway page. split.
  - destruct (body_not_json_raises sample_runtime (always gateway) (init None)
                gateway eq_refl) as (_ & _ & Hrepo & _).
    exact (Hrepo "octocat/hello" eq_refl).
  - destruct (body_not_json_raises sample_runtime (always page) (init None)
                page eq_refl) as (_ & _ & _ & Hlist).
    exact (Hlist "acme" None 1%nat eq_refl).
Defined.

(** ** The URLs of [repo_list] *)

(** X15. The URL of a page determines the page number, and no topics URL is a
    page URL, whatever the text of [org] and of a repository's
    [full_name]: the two kinds of request of [repo_list] cannot be taken
    for one another. *)
Theorem repo_list_urls_distinct rt self org :
  (∀ p q, page_url self org p = page_url self org q → p = q) ∧
  (∀ p full_name, page_url self org p ≠ topics_url rt self full_name).
Proof.
  split.
  - intros p q H. apply (page_request_inj self org). unfold page_request.
    by rewrite H.
  - intros p full_name H.
    apply (page_request_not_topics rt self org p full_name).
    unfold page_request, topics_request. by rewrite H.
Qed.

Lemma constructed_client_headers_witness :
  Forall (λ rq, req_headers rq = Some [("Authorization", "token s3cr3t")])
    [page_request (init (Some "s3cr3t")) "acme" 1;
     topics_request sample_runtime (init (Some "s3cr3t")) (JStr "acme/cli-kit");
     page_request (init (Some "s3cr3t")) "acme" 2;
     topics_request sample_runtime (init (Some "s3cr3t")) (JStr "acme/hammer");
     page_request (init (Some "s3cr3t")) "acme" 3].
Proof.
  exact (proj2 (proj2 (proj2 (constructed_client_headers sample_runtime acme
                                (Some "s3cr3t"))))
           "acme" (Some ["cli"]) 3%nat _ (Ok [JStr "acme/cli-kit"]) eq_refl).
Defined.
